(** * Listings server: city directory, contact validation and record store

    A shallow embedding of the server (Express application, TypeScript) and
    of the client copy of [formatPhone].  JavaScript strings are sequences of
    UTF-16 code units; they are modelled as [list N].  String literals of the
    source are written as UTF-8 text and decoded by [js]. *)

From Stdlib Require Import ZArith NArith List String Ascii Lia Bool.
From Stdlib Require Import DecimalString.
From stdpp Require Import base decidable option list gmap.
Import ListNotations.

Local Open Scope N_scope.

(** ** JavaScript strings *)

Abbreviation str := (list N).

Module JS.

(** Decoding of the UTF-8 text of a source literal into UTF-16 code units
    (a code point above U+FFFF becomes a surrogate pair). *)
Fixpoint utf16_of_utf8 (bs : list N) : str :=
  match bs with
  | [] => []
  | b0 :: t0 =>
      if b0 <? 0x80 then b0 :: utf16_of_utf8 t0
      else if b0 <? 0xE0 then
        match t0 with
        | b1 :: t1 =>
            N.lor (N.shiftl (N.land b0 0x1F) 6) (N.land b1 0x3F)
            :: utf16_of_utf8 t1
        | _ => []
        end
      else if b0 <? 0xF0 then
        match t0 with
        | b1 :: b2 :: t2 =>
            N.lor (N.shiftl (N.land b0 0x0F) 12)
              (N.lor (N.shiftl (N.land b1 0x3F) 6) (N.land b2 0x3F))
            :: utf16_of_utf8 t2
        | _ => []
        end
      else
        match t0 with
        | b1 :: b2 :: b3 :: t3 =>
            let cp :=
              N.lor (N.shiftl (N.land b0 0x07) 18)
                (N.lor (N.shiftl (N.land b1 0x3F) 12)
                   (N.lor (N.shiftl (N.land b2 0x3F) 6) (N.land b3 0x3F))) in
            let v := cp - 0x10000 in
            (0xD800 + N.shiftr v 10) :: (0xDC00 + N.land v 0x3FF)
            :: utf16_of_utf8 t3
        | _ => []
        end
  end.

Definition js (s : string) : str :=
  utf16_of_utf8 (map N_of_ascii (list_ascii_of_string s)).
Arguments js s%_string_scope.

(** Truthiness of a string value: only the empty string is falsy. *)
Definition truthy (s : str) : bool :=
  match s with [] => false | _ :: _ => true end.

(** [s.startsWith(t)] *)
Fixpoint startsWith (s t : str) {struct t} : bool :=
  match t, s with
  | [], _ => true
  | _ :: _, [] => false
  | b :: t', a :: s' => (a =? b) && startsWith s' t'
  end.

(** [s.includes(t)]: [t] occurs at some position of [s]. *)
Fixpoint includes (s t : str) : bool :=
  startsWith s t ||
  match s with
  | [] => false
  | _ :: s' => includes s' t
  end.

(** [s.substring(a, b)]: indices are clamped to the length and swapped
    when [a > b]. *)
Definition substring (a b : nat) (s : str) : str :=
  let lo := Nat.min a b in
  let hi := Nat.max a b in
  firstn (hi - lo) (skipn lo s).

(** [s.substring(a)] *)
Definition substringFrom (a : nat) (s : str) : str := skipn a s.

(** The regular-expression class [\d] (no [u] flag): ASCII digits. *)
Definition isDigit (c : N) : bool := (48 <=? c) && (c <=? 57).

(** The class [\s], which is also the set removed by [trim]: WhiteSpace
    and LineTerminator code points. *)
Definition isWhiteSpace (c : N) : bool :=
  ((9 <=? c) && (c <=? 13)) || (c =? 32) || (c =? 0xA0) || (c =? 0x1680)
  || ((0x2000 <=? c) && (c <=? 0x200A)) || (c =? 0x2028) || (c =? 0x2029)
  || (c =? 0x202F) || (c =? 0x205F) || (c =? 0x3000) || (c =? 0xFEFF).

Fixpoint dropWhile (p : N -> bool) (s : str) : str :=
  match s with
  | [] => []
  | c :: s' => if p c then dropWhile p s' else s
  end.

(** [s.trim()] *)
Definition trim (s : str) : str :=
  rev (dropWhile isWhiteSpace (rev (dropWhile isWhiteSpace s))).

(** [s.replace(/\D/g, '')] *)
Definition stripNonDigits (s : str) : str := List.filter isDigit s.

(** [s.split(re)] for a regular expression [re] that matches exactly the
    non-empty runs of code units satisfying [sep] (such as [/[-\s]+/]):
    the pieces between maximal runs, with an empty piece when the string
    starts or ends with a separator, and a single empty piece for the empty string. *)
Fixpoint splitRuns_aux (sep : N -> bool) (inRun : bool) (cur : str)
    (s : str) : list str :=
  match s with
  | [] => [rev cur]
  | c :: s' =>
      if sep c then
        if inRun then splitRuns_aux sep true cur s'
        else rev cur :: splitRuns_aux sep true [] s'
      else splitRuns_aux sep false (c :: cur) s'
  end.

Definition splitRuns (sep : N -> bool) (s : str) : list str :=
  splitRuns_aux sep false [] s.

(** [s.split(c)] for a one-character string separator [c]. *)
Fixpoint splitChar_aux (sep : N) (cur : str) (s : str) : list str :=
  match s with
  | [] => [rev cur]
  | c :: s' =>
      if c =? sep then rev cur :: splitChar_aux sep [] s'
      else splitChar_aux sep (c :: cur) s'
  end.

Definition splitChar (sep : N) (s : str) : list str :=
  splitChar_aux sep [] s.

(** [a.join(sep)] *)
Fixpoint join (sep : str) (l : list str) : str :=
  match l with
  | [] => []
  | [x] => x
  | x :: l' => x ++ sep ++ join sep l'
  end.

(** Locale-independent lower-casing, [String.prototype.toLowerCase].  The
    Unicode tables are not reproduced: the development is parametric in
    the mapping and relies only on the fact that it maps the empty string,
    and nothing else, to the empty string. *)
Class CaseMapping := {
  toLowerCase : str -> str;
  toLowerCase_nil_iff : forall s, toLowerCase s = [] <-> s = []
}.

(** The mapping restricted to Basic Latin and the Cyrillic block
    U+0400-U+044F, where it acts on single code units and agrees with
    [toLowerCase]; every string of the source lies in that range. *)
Definition lowerUnit (c : N) : N :=
  if (65 <=? c) && (c <=? 90) then c + 32
  else if (0x410 <=? c) && (c <=? 0x42F) then c + 0x20
  else if (0x400 <=? c) && (c <=? 0x40F) then c + 0x50
  else c.

Program Definition basicCaseMapping : CaseMapping :=
  {| toLowerCase := map lowerUnit |}.
Next Obligation.
  intros s; split; intros H; [now destruct s | now subst].
Qed.

End JS.

Import JS.

(** ** City directory *)

(** [RUSSIAN_CITIES], in the order of the source. *)
Definition RUSSIAN_CITIES : list str := map js [
    "Москва"; "Санкт-Петербург"; "Новосибирск"; "Екатеринбург"; "Казань";
    "Нижний Новгород"; "Челябинск"; "Самара"; "Омск"; "Ростов-на-Дону";
    "Уфа"; "Красноярск"; "Воронеж"; "Пермь"; "Волгоград";
    "Краснодар"; "Саратов"; "Тюмень"; "Тольятти"; "Ижевск";
    "Барнаул"; "Ульяновск"; "Иркутск"; "Хабаровск"; "Ярославль";
    "Владивосток"; "Махачкала"; "Томск"; "Оренбург"; "Кемерово";
    "Новокузнецк"; "Рязань"; "Астрахань"; "Набережные Челны"; "Пенза";
    "Липецк"; "Киров"; "Чебоксары"; "Тула"; "Калининград";
    "Балашиха"; "Курск"; "Севастополь"; "Сочи"; "Ставрополь";
    "Улан-Удэ"; "Тверь"; "Магнитогорск"; "Иваново"; "Брянск";
    "Белгород"; "Сургут"; "Владимир"; "Нижний Тагил"; "Архангельск";
    "Чита"; "Калуга"; "Симферополь"; "Смоленск"; "Волжский";
    "Саранск"; "Череповец"; "Курган"; "Орёл"; "Вологда";
    "Якутск"; "Подольск"; "Стерлитамак"; "Грозный"; "Владикавказ";
    "Мурманск"; "Тамбов"; "Петрозаводск"; "Кострома"; "Нижневартовск";
    "Новороссийск"; "Йошкар-Ола"; "Химки"; "Таганрог"; "Комсомольск-на-Амуре";
    "Сыктывкар"; "Нальчик"; "Шахты"; "Дзержинск"; "Орск";
    "Братск"; "Энгельс"; "Ангарск"; "Королёв"; "Псков";
    "Бийск"; "Прокопьевск"; "Рыбинск"; "Балаково"; "Армавир";
    "Южно-Сахалинск"; "Северодвинск"; "Абакан"; "Норильск"; "Люберцы";
    "Мытищи"; "Миасс"; "Новочеркасск"; "Каменск-Уральский"; "Златоуст";
    "Электросталь"; "Альметьевск"; "Салават"; "Копейск"; "Пятигорск";
    "Рубцовск"; "Березники"; "Коломна"; "Майкоп"; "Одинцово";
    "Ковров"; "Кисловодск"; "Железнодорожный"; "Новомосковск"; "Серпухов";
    "Новошахтинск"; "Нефтеюганск"; "Первоуральск"; "Дербент"; "Черкесск";
    "Орехово-Зуево"; "Нефтекамск"; "Красногорск"; "Димитровград"; "Батайск";
    "Муром"; "Гатчина"; "Сергиев Посад"; "Новотроицк"; "Воскресенск";
    "Елец"; "Евпатория"; "Реутов"; "Арзамас"; "Бердск";
    "Элиста"; "Ногинск"; "Домодедово"; "Обнинск"; "Каспийск";
    "Кызыл"; "Назрань"; "Раменское"; "Находка"; "Уссурийск"
  ]%string.

Section CityDirectory.

Context {CM : CaseMapping}.

(** [validateCity] *)
Definition validateCity (city : str) : bool :=
  if negb (truthy city) then false
  else
    existsb
      (fun russianCity =>
         bool_decide (toLowerCase russianCity = toLowerCase city))
      RUSSIAN_CITIES.

(** [a.includes(x)] on an array of strings. *)
Definition arrayIncludes (a : list str) (x : str) : bool :=
  existsb (fun y => bool_decide (y = x)) a.

(** The separator class of [/[-\s]+/]. *)
Definition isHyphenOrSpace (c : N) : bool := (c =? 45) || isWhiteSpace c.

(** Handler of [GET /api/cities]; [None] is an absent [query] parameter. *)
Definition getCities (query : option str) : list str :=
  let cities := RUSSIAN_CITIES in
  match query with
  | Some query =>
      if truthy query && truthy (trim query) then
        let searchTerm := trim (toLowerCase query) in
        let exactMatches :=
          List.filter (fun city => startsWith (toLowerCase city) searchTerm)
            cities in
        let results :=
          if (length exactMatches <? 10)%nat then
            let wordMatches :=
              List.filter
                (fun city =>
                   if arrayIncludes exactMatches city then false
                   else
                     let words :=
                       splitRuns isHyphenOrSpace (toLowerCase city) in
                     existsb (fun word => startsWith word searchTerm) words)
                cities in
            exactMatches ++ wordMatches
          else exactMatches in
        firstn 15 results
      else []
  | None => []
  end.

(** The [suggestion] computed by the handler of
    [GET /api/cities/validate/:city]: two scans of the directory, the
    second one entered when the first left a falsy [suggestion]. *)
Definition truthyOpt (o : option str) : bool :=
  match o with Some s => truthy s | None => false end.

Definition suggestion (city : str) : option str :=
  let isValid := validateCity city in
  if negb isValid then
    let input := toLowerCase city in
    let suggestion :=
      List.find (fun russianCity => startsWith (toLowerCase russianCity) input)
        RUSSIAN_CITIES in
    if negb (truthyOpt suggestion) then
      match
        List.find (fun russianCity => includes (toLowerCase russianCity) input)
          RUSSIAN_CITIES
      with
      | Some russianCity => Some russianCity
      | None => suggestion
      end
    else suggestion
  else None.

(** The response body of the handler: [{city, isValid, suggestion}]. *)
Definition getCitiesValidate (city : str) : str * bool * option str :=
  (city, validateCity city, suggestion city).

End CityDirectory.

(** ** Contact validation *)

(** [validatePhone] *)
Definition validatePhone (phone : str) : bool :=
  if negb (truthy phone) then true
  else
    let digits := stripNonDigits phone in
    (length digits =? 11)%nat
    && (startsWith digits (js "7") || startsWith digits (js "8")).

(** [formatPhone] of the server. *)
Definition formatPhone (phone : str) : str :=
  if negb (truthy phone) then []
  else
    let digits := stripNonDigits phone in
    if (length digits =? 11)%nat then
      let code :=
        if startsWith digits (js "8") then js "7" else substring 0 1 digits in
      let rest :=
        if startsWith digits (js "8") then substringFrom 1 digits
        else substringFrom 1 digits in
      js "+7 (" ++ substring 0 3 rest ++ js ") " ++ substring 3 6 rest
      ++ js "-" ++ substring 6 8 rest ++ js "-" ++ substring 8 10 rest
    else phone.

Module Client.

(** [formatPhone] of [client/script.js]. *)
Definition formatPhone (phone : str) : str :=
  if negb (truthy phone) then []
  else
    let digits := stripNonDigits phone in
    if (length digits =? 11)%nat then
      let code :=
        if startsWith digits (js "8") then js "7" else substring 0 1 digits in
      let rest :=
        if startsWith digits (js "8") then substringFrom 1 digits
        else substringFrom 1 digits in
      js "+7 (" ++ substring 0 3 rest ++ js ") " ++ substring 3 6 rest
      ++ js "-" ++ substring 6 8 rest ++ js "-" ++ substring 8 10 rest
    else phone.

End Client.

(** ** Dates *)

Module JSDate.

Local Open Scope Z_scope.

Definition msPerDay : Z := 86400000.

(** Civil date [(year, month, day)] of a day number counted from
    1970-01-01 in the proleptic Gregorian calendar. *)
Definition civilFromDays (day : Z) : Z * Z * Z :=
  let z := day + 719468 in
  let era := z / 146097 in
  let doe := z - era * 146097 in
  let yoe := (doe - doe / 1460 + doe / 36524 - doe / 146096) / 365 in
  let doy := doe - (365 * yoe + yoe / 4 - yoe / 100) in
  let mp := (5 * doy + 2) / 153 in
  let d := doy - (153 * mp + 2) / 5 + 1 in
  let m := if mp <? 10 then mp + 3 else mp - 9 in
  let y := yoe + era * 400 in
  (if m <=? 2 then y + 1 else y, m, d).

(** Day number of a civil date, the inverse of [civilFromDays]. *)
Definition daysFromCivil (y m d : Z) : Z :=
  let y' := if m <=? 2 then y - 1 else y in
  let era := y' / 400 in
  let yoe := y' - era * 400 in
  let mp := if m <=? 2 then m + 9 else m - 3 in
  let doy := (153 * mp + 2) / 5 + d - 1 in
  let doe := yoe * 365 + yoe / 4 - yoe / 100 + doy in
  era * 146097 + doe - 719468.

(** Decimal rendering on [w] digits, zero padded. *)
Fixpoint pad (w : nat) (n : Z) : str :=
  match w with
  | O => []
  | S w' => pad w' (n / 10) ++ [Z.to_N (48 + n mod 10)]
  end.

Definition yearString (y : Z) : str :=
  if (0 <=? y) && (y <=? 9999) then pad 4 y
  else if y <? 0 then js "-" ++ pad 6 (- y)
  else js "+" ++ pad 6 y.

(** The date part [YYYY-MM-DD] of a time value read in a zone that is
    [offset] milliseconds ahead of UTC. *)
Definition dateStringAt (offset : Z) (t : Z) : str :=
  let '(y, m, d) := civilFromDays ((t + offset) / msPerDay) in
  yearString y ++ js "-" ++ pad 2 m ++ js "-" ++ pad 2 d.

(** [Date.prototype.toISOString] on a valid time value:
    [YYYY-MM-DDTHH:mm:ss.sssZ], in UTC. *)
Definition isoString (t : Z) : str :=
  let r := t mod msPerDay in
  dateStringAt 0 t ++ js "T" ++ pad 2 (r / 3600000) ++ js ":"
  ++ pad 2 (r / 60000 mod 60) ++ js ":" ++ pad 2 (r / 1000 mod 60)
  ++ js "." ++ pad 3 (r mod 1000) ++ js "Z".

(** Reading of a decimal numeral. *)
Fixpoint numeral (acc : Z) (s : str) : option Z :=
  match s with
  | [] => Some acc
  | c :: s' =>
      if isDigit c then numeral (10 * acc + (Z.of_N c - 48)) s' else None
  end.

Definition daysInMonth (y m : Z) : Z :=
  daysFromCivil (if m =? 12 then y + 1 else y) (if m =? 12 then 1 else m + 1) 1
  - daysFromCivil y m 1.

(** [Date.parse] on the format written by [toISOString] with a four-digit
    year; other formats are outside this instance and read as invalid. *)
Definition parseIso (s : str) : option Z :=
  match s with
  | [y1; y2; y3; y4; 45; m1; m2; 45; d1; d2; 84; h1; h2; 58; i1; i2; 58;
     s1; s2; 46; f1; f2; f3; 90]%N =>
      match numeral 0 [y1; y2; y3; y4], numeral 0 [m1; m2],
            numeral 0 [d1; d2], numeral 0 [h1; h2], numeral 0 [i1; i2],
            numeral 0 [s1; s2], numeral 0 [f1; f2; f3] with
      | Some y, Some m, Some d, Some h, Some i, Some sec, Some f =>
          if (1 <=? m) && (m <=? 12) && (1 <=? d) && (d <=? daysInMonth y m)
             && (h <? 24) && (i <? 60) && (sec <? 60)
          then
            Some (daysFromCivil y m d * msPerDay + h * 3600000 + i * 60000
                  + sec * 1000 + f)
          else None
      | _, _, _, _, _, _, _ => None
      end
  | _ => None
  end.

End JSDate.

(** ** Exceptions, the file system and the handlers' effects *)

(** Result of a computation that may throw. *)
Inductive Exc (A : Type) : Type :=
| Ok (a : A)
| Throw.
Arguments Ok {A} a.
Arguments Throw {A}.

(** Calls made to the [fs] module, in the order they are made. *)
Inductive FsCall : Type :=
| CallRead (path : str)
| CallWrite (path content : str)
| CallExists (path : str)
| CallUnlink (path : str).

(** What a path names: a regular file with its content, or a directory. *)
Inductive Node : Type :=
| File (content : str)
| Directory.

(** The file system: what each path names, if anything, and the trace of
    calls received so far.  Several paths may name one directory
    ([uploads] and [uploads/]).  Reading or unlinking a path that is not a
    regular file throws (nothing there, or a directory), and so does
    writing to a directory.  The model has no permissions and no capacity,
    and the directory a file is written in is there, so every other write
    succeeds. *)
Record FS : Type := {
  nodes : gmap str Node;
  calls : list FsCall
}.

Definition fileContent (n : Node) : option str :=
  match n with
  | File content => Some content
  | Directory => None
  end.

(** The regular files, with their content. *)
Definition files (fs : FS) : gmap str str := omap fileContent (nodes fs).

Definition isDirectory (fs : FS) (path : str) : bool :=
  match nodes fs !! path with
  | Some Directory => true
  | _ => false
  end.

(** Computations with file-system effects and exceptions.  An exception
    keeps the effects made before it. *)
Definition IO (A : Type) : Type := FS -> Exc A * FS.

Definition ret {A} (a : A) : IO A := fun fs => (Ok a, fs).

Definition bind {A B} (m : IO A) (k : A -> IO B) : IO B :=
  fun fs =>
    match m fs with
    | (Ok a, fs') => k a fs'
    | (Throw, fs') => (Throw, fs')
    end.

Definition throw {A} : IO A := fun fs => (Throw, fs).

Definition liftExc {A} (e : Exc A) : IO A := fun fs => (e, fs).

(** [try { m } catch { h }] *)
Definition tryCatch {A} (m : IO A) (h : IO A) : IO A :=
  fun fs =>
    match m fs with
    | (Ok a, fs') => (Ok a, fs')
    | (Throw, fs') => h fs'
    end.

Declare Scope io_scope.
Delimit Scope io_scope with io.
Notation "x <- m ;; k" := (bind m (fun x => k))
  (at level 100, m at next level, right associativity) : io_scope.
Notation "m ;;; k" := (bind m (fun _ => k))
  (at level 100, right associativity) : io_scope.

Definition record (c : FsCall) (fs : FS) : FS :=
  {| nodes := nodes fs; calls := calls fs ++ [c] |}.

(** [fs.readFileSync(path, 'utf8')]: throws when the path is not a regular
    file. *)
Definition readFileSync (path : str) : IO str :=
  fun fs =>
    let fs' := record (CallRead path) fs in
    match files fs !! path with
    | Some data => (Ok data, fs')
    | None => (Throw, fs')
    end.

(** [fs.writeFileSync(path, data)]: creates or replaces a regular file;
    throws when the path is a directory. *)
Definition writeFileSync (path data : str) : IO unit :=
  fun fs =>
    if isDirectory fs path then (Throw, record (CallWrite path data) fs)
    else
      (Ok tt,
       {| nodes := <[path := File data]> (nodes fs);
          calls := calls fs ++ [CallWrite path data] |}).

(** [fs.existsSync(path)]: true of a regular file and of a directory. *)
Definition existsSync (path : str) : IO bool :=
  fun fs =>
    (Ok (bool_decide (is_Some (nodes fs !! path))),
     record (CallExists path) fs).

(** [fs.unlinkSync(path)]: removes a regular file; throws when the path is
    not one (nothing there, or a directory). *)
Definition unlinkSync (path : str) : IO unit :=
  fun fs =>
    match files fs !! path with
    | Some _ =>
        (Ok tt,
         {| nodes := delete path (nodes fs);
            calls := calls fs ++ [CallUnlink path] |})
    | None => (Throw, record (CallUnlink path) fs)
    end.

(** Responses of the handlers: a body sent with status 200 ([res.json],
    [res.send]), or an error status with its message. *)
Inductive Response (A : Type) : Type :=
| Reply (body : A)
| Failure (status : nat) (error : str).
Arguments Reply {A} body.
Arguments Failure {A} status error.

(** ** Project records and their store *)

(** [interface Project], over the number type of the host. *)
Record Project (Number : Type) : Type := {
  id : str;
  title : str;
  tagline : str;
  description : str;
  image : option str;
  city : str;
  price : Number;
  contact : str;
  phone : option str;
  email : option str;
  telegram : option str;
  otherContact : option str;
  createdAt : str
}.
Arguments id {Number} _.
Arguments title {Number} _.
Arguments tagline {Number} _.
Arguments description {Number} _.
Arguments image {Number} _.
Arguments city {Number} _.
Arguments price {Number} _.
Arguments contact {Number} _.
Arguments phone {Number} _.
Arguments email {Number} _.
Arguments telegram {Number} _.
Arguments otherContact {Number} _.
Arguments createdAt {Number} _.

(** A property of the value read back from a record's [contact] field, as
    the export uses it: a string; or a value of another kind, of which the
    export uses whether it is truthy and its rendering as a string, which
    throws on an object that cannot be converted to a primitive value. *)
Inductive ContactValue : Type :=
| TextValue (s : str)
| OtherValue (isTruthy : bool) (rendered : Exc str).

(** The value read back from a record's [contact] field, when it is not
    [null]: the three properties the export reads ([None]: [undefined], as
    on a value without the property). *)
Record Contacts : Type := {
  contacts_phone : option ContactValue;
  contacts_email : option ContactValue;
  contacts_telegram : option ContactValue
}.

(** What the handlers use of the host: JavaScript numbers and their
    rendering as strings, [JSON.parse] and [JSON.stringify] at the types
    they are used at, [Date.parse] ([None] is an invalid date), [__dirname]
    and [path.join].  [JSON_parse_contacts] throws on a text that is not
    JSON, and gives [None] on a text whose value is [null]. *)
Class Host : Type := {
  Number : Type;
  Number_toString : Number -> str;
  JSON_parse_projects : str -> Exc (list (Project Number));
  JSON_stringify_projects : list (Project Number) -> str;
  JSON_parse_contacts : str -> Exc (option Contacts);
  Date_parse : str -> option Z;
  dirname : str;
  path_join : str -> str -> str
}.

Section Store.

Context {H : Host}.

Definition DATA_FILE : str := path_join dirname (js "projects.json").

Local Open Scope io_scope.

(** [readProjects] *)
Definition readProjects : IO (list (Project Number)) :=
  tryCatch
    (data <- readFileSync DATA_FILE ;;
     liftExc (JSON_parse_projects data))
    (ret []).

(** [writeProjects] *)
Definition writeProjects (projects : list (Project Number)) : IO unit :=
  tryCatch
    (writeFileSync DATA_FILE (JSON_stringify_projects projects))
    (ret tt).

(** [a.findIndex(p)]; [None] stands for [-1]. *)
Fixpoint findIndex {A} (p : A -> bool) (a : list A) : option nat :=
  match a with
  | [] => None
  | x :: a' => if p x then Some O else option_map S (findIndex p a')
  end.

(** The image clean-up of the [DELETE] handler. *)
Definition removeImage (project : Project Number) : IO unit :=
  match image project with
  | Some img =>
      if truthy img && startsWith img (js "uploads/") then
        let imagePath := path_join dirname img in
        b <- existsSync imagePath ;;
        if b then unlinkSync imagePath else ret tt
      else ret tt
  | None => ret tt
  end.

(** Handler of [DELETE /api/projects/:id]. *)
Definition deleteProject (idParam : str) : IO (Response (str * str)) :=
  tryCatch
    (projects <- readProjects ;;
     match findIndex (fun p => bool_decide (id p = idParam)) projects with
     | None => ret (Failure 404 (js "Проект не найден"))
     | Some projectIndex =>
         match projects !! projectIndex with
         | Some project =>
             removeImage project ;;;
             let projects := delete projectIndex projects in
             writeProjects projects ;;;
             ret (Reply (js "Проект успешно удален", idParam))
         | None => throw
         end
     end)
    (ret (Failure 500 (js "Ошибка сервера при удалении проекта"))).

(** [new Date(s).toISOString()]: a [RangeError] on an invalid date. *)
Definition toISOString (s : str) : Exc str :=
  match Date_parse s with
  | Some t => Ok (JSDate.isoString t)
  | None => Throw
  end.

(** [a.filter(p)] for a callback that may throw. *)
Fixpoint filterExc {A} (p : A -> Exc bool) (a : list A) : Exc (list A) :=
  match a with
  | [] => Ok []
  | x :: a' =>
      match p x with
      | Ok b =>
          match filterExc p a' with
          | Ok r => Ok (if b then x :: r else r)
          | Throw => Throw
          end
      | Throw => Throw
      end
  end.

(** The filter of the handler of [GET /api/projects/date/:date]. *)
Definition filterByDate (date : str) (projects : list (Project Number))
    : Exc (list (Project Number)) :=
  filterExc
    (fun project =>
       match toISOString (createdAt project) with
       | Ok iso =>
           let projectDate := hd [] (splitChar 84 iso) in
           Ok (bool_decide (projectDate = date))
       | Throw => Throw
       end)
    projects.

(** Handler of [GET /api/projects/date/:date]. *)
Definition getProjectsByDate (date : str)
    : IO (Response (list (Project Number))) :=
  tryCatch
    (projects <- readProjects ;;
     filteredProjects <- liftExc (filterByDate date projects) ;;
     ret (Reply filteredProjects))
    (ret (Failure 500 (js "Ошибка сервера"))).

(** [x || s] on an optional string [x], with [s] the empty string. *)
Definition orEmpty (o : option str) : str :=
  match o with
  | Some s => if truthy s then s else []
  | None => []
  end.

(** The replacement of every quotation mark (U+0022) by two of them. *)
Definition doubleQuotes (s : str) : str :=
  flat_map (fun c => if c =? 34 then [34; 34] else [c]) s.

(** The template that puts [s] between two quotation marks (U+0022). *)
Definition inQuotes (s : str) : str := [34] ++ s ++ [34].

Definition csvHeader : str :=
  js "ID,Название,Описание,Город,Стоимость,Телефон,Email,Telegram,Дата".

(** The template that puts [v || ''] between two quotation marks, for a
    property [v] of the contacts. *)
Definition contactCell (v : option ContactValue) : Exc str :=
  match v with
  | Some (TextValue s) => Ok (inQuotes (orEmpty (Some s)))
  | Some (OtherValue true rendered) =>
      match rendered with
      | Ok s => Ok (inQuotes s)
      | Throw => Throw
      end
  | Some (OtherValue false _) => Ok (inQuotes [])
  | None => Ok (inQuotes [])
  end.

(** One row of the export, without its line feed.  Reading [contacts.phone]
    on [null] throws a [TypeError]. *)
Definition csvRow (project : Project Number) : Exc str :=
  match JSON_parse_contacts (contact project) with
  | Ok None => Throw
  | Ok (Some contacts) =>
      match contactCell (contacts_phone contacts),
            contactCell (contacts_email contacts),
            contactCell (contacts_telegram contacts) with
      | Ok phoneCell, Ok emailCell, Ok telegramCell =>
          Ok (join (js ",")
                [ id project;
                  inQuotes (doubleQuotes (title project));
                  inQuotes (doubleQuotes (tagline project));
                  inQuotes (city project);
                  Number_toString (price project);
                  phoneCell;
                  emailCell;
                  telegramCell;
                  createdAt project ])
      | _, _, _ => Throw
      end
  | Throw => Throw
  end.

(** The records whose row can be written: the contact text parses to a
    value other than [null], whose three properties can be rendered. *)
Definition readableContact (project : Project Number) : Prop :=
  exists contacts,
    JSON_parse_contacts (contact project) = Ok (Some contacts)
    /\ contactCell (contacts_phone contacts) <> Throw
    /\ contactCell (contacts_email contacts) <> Throw
    /\ contactCell (contacts_telegram contacts) <> Throw.

(** The records whose row cannot be written: the contact text does not
    parse, or parses to [null], or to a value one of whose three
    properties cannot be rendered. *)
Definition unreadableContact (project : Project Number) : Prop :=
  JSON_parse_contacts (contact project) = Throw
  \/ JSON_parse_contacts (contact project) = Ok None
  \/ exists contacts,
       JSON_parse_contacts (contact project) = Ok (Some contacts)
       /\ (contactCell (contacts_phone contacts) = Throw
           \/ contactCell (contacts_email contacts) = Throw
           \/ contactCell (contacts_telegram contacts) = Throw).

(** The text built by the handler of [GET /api/export/csv]: the [forEach]
    loop appends one row after the other to the header line. *)
Fixpoint csvRows (csv : str) (projects : list (Project Number)) : Exc str :=
  match projects with
  | [] => Ok csv
  | project :: projects' =>
      match csvRow project with
      | Ok row => csvRows (csv ++ row ++ [10]) projects'
      | Throw => Throw
      end
  end.

Definition exportCsvText (projects : list (Project Number)) : Exc str :=
  csvRows (csvHeader ++ [10]) projects.

(** Handler of [GET /api/export/csv]. *)
Definition exportCsv : IO (Response str) :=
  tryCatch
    (projects <- readProjects ;;
     csv <- liftExc (exportCsvText projects) ;;
     ret (Reply csv))
    (ret (Failure 500 (js "Ошибка сервера"))).

End Store.

(** ** The operations as the specification words them *)

Section Claimed.

Context {CM : CaseMapping}.

(** A directory entry starts with, or contains, a name, case being
    ignored. *)
Definition StartsWithCI (name entry : str) : Prop :=
  exists rest, toLowerCase entry = toLowerCase name ++ rest.

Definition ContainsCI (name entry : str) : Prop :=
  exists before after,
    toLowerCase entry = before ++ toLowerCase name ++ after.

(** [r] is the first directory entry, in enumeration order, that satisfies
    [P]; [None] when no entry does. *)
Definition FirstEntry (P : str -> Prop) (r : option str) : Prop :=
  match r with
  | Some entry =>
      exists before after,
        RUSSIAN_CITIES = before ++ entry :: after
        /\ P entry /\ Forall (fun e => ~ P e) before
  | None => Forall (fun e => ~ P e) RUSSIAN_CITIES
  end.

(** The search of the specification for a term compared as it is: prefix
    matches, then, when these are fewer than ten, the word matches that
    are not prefix matches, the whole cut to fifteen entries. *)
Definition prefixMatch (term city : str) : bool :=
  startsWith (toLowerCase city) term.

Definition wordMatch (term city : str) : bool :=
  existsb (fun word => startsWith word term)
    (splitRuns isHyphenOrSpace (toLowerCase city)).

Definition matchesFor (term : str) : list str :=
  let prefixMatches := List.filter (prefixMatch term) RUSSIAN_CITIES in
  let wordMatches :=
    List.filter (fun city => negb (prefixMatch term city) && wordMatch term city)
      RUSSIAN_CITIES in
  firstn 15
    (prefixMatches
     ++ (if (length prefixMatches <? 10)%nat then wordMatches else [])).

Definition isBlank (query : str) : bool := negb (truthy (trim query)).

(** The search with the query itself as the term. *)
Definition searchOnQuery (query : str) : list str :=
  if isBlank query then [] else matchesFor (toLowerCase query).

(** The search with the query freed of the white space around it. *)
Definition searchOnTrimmedQuery (query : str) : list str :=
  if isBlank query then [] else matchesFor (trim (toLowerCase query)).

End Claimed.

(** The digits of a phone number laid out as [+7 (XXX) XXX-XX-XX]. *)
Definition phoneLayout (d2 d3 d4 d5 d6 d7 d8 d9 d10 d11 : N) : str :=
  js "+7 (" ++ [d2; d3; d4] ++ js ") " ++ [d5; d6; d7] ++ js "-" ++ [d8; d9]
  ++ js "-" ++ [d10; d11].

Section ClaimedStore.

Context {H : Host}.

(** The calls made between two states of the file system. *)
Definition newCalls (before after : FS) : list FsCall :=
  skipn (length (calls before)) (calls after).

(** A record was created on the calendar day [date] ([YYYY-MM-DD]) of a
    zone that is [offset] milliseconds ahead of UTC. *)
Definition createdOnDay (offset : Z) (date : str) (project : Project Number)
    : bool :=
  match Date_parse (createdAt project) with
  | Some t => bool_decide (JSDate.dateStringAt offset t = date)
  | None => false
  end.

(** The records of a day, in stored order: on the server's local day, for
    a server [offset] milliseconds ahead of UTC, and on the UTC day. *)
Definition projectsOfLocalDay (offset : Z) (date : str)
    (projects : list (Project Number)) : list (Project Number) :=
  List.filter (createdOnDay offset date) projects.

Definition projectsOfUtcDay (date : str) (projects : list (Project Number))
    : list (Project Number) :=
  List.filter (createdOnDay 0 date) projects.

Definition validCreatedAt (project : Project Number) : Prop :=
  Date_parse (createdAt project) <> None.

End ClaimedStore.

(** The header row that the specification gives for the export. *)
Definition claimedCsvHeader : str :=
  js "ID,Title,Description,City,Price,Phone,Email,Handle,CreatedAt".

(** The first line of a text. *)
Definition headerRow (csv : str) : str := hd [] (splitChar 10 csv).

(** Reading of a quoted field of delimiter-separated text: the quotation
    marks around it are removed and every pair of quotation marks inside
    stands for one; a lone quotation mark inside is an error. *)
Fixpoint undouble (s : str) : option str :=
  match s with
  | [] => Some []
  | c :: s' =>
      if c =? 34 then
        match s' with
        | c' :: s'' =>
            if c' =? 34 then option_map (cons 34) (undouble s'') else None
        | [] => None
        end
      else option_map (cons c) (undouble s')
  end.

Definition unquote (field : str) : option str :=
  match field with
  | c :: body =>
      if c =? 34 then
        match rev body with
        | c' :: rbody => if c' =? 34 then undouble (rev rbody) else None
        | [] => None
        end
      else None
  | [] => None
  end.

(** ** A host for evaluation

    Integral numbers in decimal, the time stamps written by
    [toISOString], paths joined with a slash, and a backing document and
    contact strings whose parsing is fixed beforehand. *)

Definition decimal (n : Z) : str :=
  js (DecimalString.NilZero.string_of_int (Z.to_int n)).

Definition fixedHost (stored : list (Project Z)) (contacts : Contacts)
    : Host :=
  {| Number := Z;
     Number_toString := decimal;
     JSON_parse_projects := fun _ => Ok stored;
     JSON_stringify_projects := fun _ => js "[]";
     JSON_parse_contacts := fun _ => Ok (Some contacts);
     Date_parse := JSDate.parseIso;
     dirname := js "/srv/server";
     path_join := fun a b => a ++ js "/" ++ b |}.

(** The same host with a chosen reading of the contact strings. *)
Definition contactHost (stored : list (Project Z))
    (parse : str -> Exc (option Contacts)) : Host :=
  {| Number := Z;
     Number_toString := decimal;
     JSON_parse_projects := fun _ => Ok stored;
     JSON_stringify_projects := fun _ => js "[]";
     JSON_parse_contacts := parse;
     Date_parse := JSDate.parseIso;
     dirname := js "/srv/server";
     path_join := fun a b => a ++ js "/" ++ b |}.

Definition sampleContacts : Contacts :=
  {| contacts_phone := Some (TextValue (js "+7 (912) 345-67-89"));
     contacts_email := None;
     contacts_telegram := Some (TextValue (js "@listing_owner")) |}.

(** A record created at 22:30 UTC, with a picture that is not an upload. *)
Definition sampleProject : Project Z :=
  {| id := js "project_1705357800000_k3x9q2m1z";
     title := js "Stand 3x2, called " ++ [34] ++ js "Aurora" ++ [34];
     tagline := js "Fair stand, assembled";
     description := js "Frame, panels and light";
     image := Some (js "http://example.org/a.png");
     city := js "Москва";
     price := 15000%Z;
     contact := js "{...}";
     phone := Some (js "+7 (912) 345-67-89");
     email := None;
     telegram := Some (js "@listing_owner");
     otherContact := None;
     createdAt := js "2024-01-15T22:30:00.000Z" |}.

(** The same record with the contact text [null]. *)
Definition sampleNullContact : Project Z :=
  {| id := id sampleProject;
     title := title sampleProject;
     tagline := tagline sampleProject;
     description := description sampleProject;
     image := image sampleProject;
     city := city sampleProject;
     price := price sampleProject;
     contact := js "null";
     phone := phone sampleProject;
     email := email sampleProject;
     telegram := telegram sampleProject;
     otherContact := otherContact sampleProject;
     createdAt := createdAt sampleProject |}.

(** Contacts whose phone is an object that cannot be rendered. *)
Definition unrenderableContacts : Contacts :=
  {| contacts_phone := Some (OtherValue true Throw);
     contacts_email := None;
     contacts_telegram := None |}.

(** A reading of contact strings: [null] is read as it is, [{...}] is the
    sample contacts, and nothing else parses. *)
Definition sampleParse (text : str) : Exc (option Contacts) :=
  if bool_decide (text = js "null") then Ok None
  else if bool_decide (text = js "{...}") then Ok (Some sampleContacts)
  else Throw.

(** The same record with an uploaded picture. *)
Definition sampleUpload : Project Z :=
  {| id := id sampleProject;
     title := title sampleProject;
     tagline := tagline sampleProject;
     description := description sampleProject;
     image := Some (js "uploads/1.png");
     city := city sampleProject;
     price := price sampleProject;
     contact := contact sampleProject;
     phone := phone sampleProject;
     email := email sampleProject;
     telegram := telegram sampleProject;
     otherContact := otherContact sampleProject;
     createdAt := createdAt sampleProject |}.

(** The files of a server with one uploaded picture, and its uploads
    directory under both its spellings. *)
Definition sampleFS : FS :=
  {| nodes :=
       {[ js "/srv/server/projects.json" := File (js "[...]");
          js "/srv/server/uploads/1.png" := File (js "PNG");
          js "/srv/server/uploads" := Directory;
          js "/srv/server/uploads/" := Directory ]};
     calls := [] |}.

From Stdlib Require DecimalZ.

(** ** Regular expressions

    The patterns of the source use character classes, concatenation,
    alternation and bounded or unbounded repetition, between [^] and [$]
    and without flags: [re.test(s)] holds when the whole of [s], read as
    code units, belongs to the language of the pattern. *)

Module Regex.

Inductive regex : Type :=
| Void
| Eps
| Class (p : N -> bool)
| Cat (r s : regex)
| Alt (r s : regex)
| Star (r : regex).

(** A literal character. *)
Definition Chr (c : N) : regex := Class (N.eqb c).

(** [r+] *)
Definition Plus (r : regex) : regex := Cat r (Star r).

(** [r{n}] *)
Fixpoint Times (n : nat) (r : regex) : regex :=
  match n with
  | O => Eps
  | S n' => Cat r (Times n' r)
  end.

(** [r{0,n}] *)
Fixpoint UpTo (n : nat) (r : regex) : regex :=
  match n with
  | O => Eps
  | S n' => Alt Eps (Cat r (UpTo n' r))
  end.

(** [r{m,n}] *)
Definition Range (m n : nat) (r : regex) : regex :=
  Cat (Times m r) (UpTo (n - m) r).

(** [r{m,}] *)
Definition AtLeast (m : nat) (r : regex) : regex := Cat (Times m r) (Star r).

Fixpoint nullable (r : regex) : bool :=
  match r with
  | Void => false
  | Eps => true
  | Class _ => false
  | Cat r1 r2 => nullable r1 && nullable r2
  | Alt r1 r2 => nullable r1 || nullable r2
  | Star _ => true
  end.

(** The pattern of what may follow the character [c]. *)
Fixpoint deriv (c : N) (r : regex) : regex :=
  match r with
  | Void => Void
  | Eps => Void
  | Class p => if p c then Eps else Void
  | Cat r1 r2 =>
      if nullable r1 then Alt (Cat (deriv c r1) r2) (deriv c r2)
      else Cat (deriv c r1) r2
  | Alt r1 r2 => Alt (deriv c r1) (deriv c r2)
  | Star r1 => Cat (deriv c r1) (Star r1)
  end.

(** [/^r$/.test(s)] *)
Fixpoint test (r : regex) (s : str) : bool :=
  match s with
  | [] => nullable r
  | c :: s' => test (deriv c r) s'
  end.

(** The language of a pattern. *)
Inductive Lang : regex -> str -> Prop :=
| LangEps : Lang Eps []
| LangClass p c : p c = true -> Lang (Class p) [c]
| LangCat r1 r2 s1 s2 :
    Lang r1 s1 -> Lang r2 s2 -> Lang (Cat r1 r2) (s1 ++ s2)
| LangAltL r1 r2 s : Lang r1 s -> Lang (Alt r1 r2) s
| LangAltR r1 r2 s : Lang r2 s -> Lang (Alt r1 r2) s
| LangStarNil r : Lang (Star r) []
| LangStarCons r s1 s2 :
    Lang r s1 -> Lang (Star r) s2 -> Lang (Star r) (s1 ++ s2).

(** Whether some character class of the pattern accepts [c]. *)
Fixpoint accepts (r : regex) (c : N) : bool :=
  match r with
  | Void => false
  | Eps => false
  | Class p => p c
  | Cat r1 r2 => accepts r1 c || accepts r2 c
  | Alt r1 r2 => accepts r1 c || accepts r2 c
  | Star r1 => accepts r1 c
  end.

End Regex.

Import Regex.

(** ** Contact validation: e-mail address and Telegram name *)

Definition isLower (c : N) : bool := (97 <=? c) && (c <=? 122).
Definition isUpper (c : N) : bool := (65 <=? c) && (c <=? 90).

(** [[a-zA-Z]] *)
Definition isLetter (c : N) : bool := isLower c || isUpper c.

(** [[a-zA-Z0-9_]] *)
Definition isWordChar (c : N) : bool :=
  isLower c || isUpper c || isDigit c || (c =? 95).

(** [[a-zA-Z\-0-9]] *)
Definition isLabelChar (c : N) : bool :=
  isLower c || isUpper c || (c =? 45) || isDigit c.

(** The class that excludes the angle brackets, the parentheses, the
    square brackets, the backslash, the full stop, the comma, the
    semicolon, the colon, white space, the at sign and the quotation
    mark. *)
Definition isAtomChar (c : N) : bool :=
  negb ((c =? 60) || (c =? 62) || (c =? 40) || (c =? 41) || (c =? 91)
        || (c =? 93) || (c =? 92) || (c =? 46) || (c =? 44) || (c =? 59)
        || (c =? 58) || isWhiteSpace c || (c =? 64) || (c =? 34)).

(** The full stop of a pattern: any code unit but a line terminator. *)
Definition isDotChar (c : N) : bool :=
  negb ((c =? 10) || (c =? 13) || (c =? 0x2028) || (c =? 0x2029)).

Definition atomRe : regex := Plus (Class isAtomChar).

Definition localPartRe : regex :=
  Alt (Cat atomRe (Star (Cat (Chr 46) atomRe)))
      (Cat (Chr 34) (Cat (Plus (Class isDotChar)) (Chr 34))).

Definition octetRe : regex := Range 1 3 (Class isDigit).

Definition addressLiteralRe : regex :=
  Cat (Chr 91)
    (Cat octetRe
       (Cat (Chr 46)
          (Cat octetRe
             (Cat (Chr 46)
                (Cat octetRe (Cat (Chr 46) (Cat octetRe (Chr 93)))))))).

Definition hostNameRe : regex :=
  Cat (Plus (Cat (Plus (Class isLabelChar)) (Chr 46)))
      (AtLeast 2 (Class isLetter)).

Definition domainRe : regex := Alt addressLiteralRe hostNameRe.

(** The pattern [re] of [validateEmail]. *)
Definition emailRe : regex := Cat localPartRe (Cat (Chr 64) domainRe).

(** The pattern [re] of [validateTelegram]: [/^@[a-zA-Z0-9_]{5,32}$/]. *)
Definition telegramRe : regex := Cat (Chr 64) (Range 5 32 (Class isWordChar)).

(** [validateEmail] of the server. *)
Definition validateEmail {CM : CaseMapping} (email : str) : bool :=
  test emailRe (toLowerCase email).

(** [validateTelegram] of the server. *)
Definition validateTelegram (telegram : str) : bool :=
  if negb (truthy telegram) then true else test telegramRe telegram.

(** ** The client: validation and helpers of [client/script.js] *)

(** A contact object with its four fields; an absent field is [None]. *)
Record ContactFields : Type := {
  cf_phone : option str;
  cf_email : option str;
  cf_telegram : option str;
  cf_otherContact : option str
}.

(** Truthiness of a value that may be absent. *)
Definition present (o : option str) : bool :=
  match o with Some s => truthy s | None => false end.

Module ClientForm.

(** [validateEmail] of the client: [String(email)] is [email] itself for a
    string. *)
Definition validateEmail {CM : CaseMapping} (email : str) : bool :=
  if negb (truthy email) then true else test emailRe (toLowerCase email).

(** [validateTelegram] of the client. *)
Definition validateTelegram (username : str) : bool :=
  if negb (truthy username) then true else test telegramRe username.

(** [validateContacts]: the reason of the refusal, [None] for [null]. *)
Definition validateContacts {CM : CaseMapping} (contacts : ContactFields)
    : option str :=
  let phone := cf_phone contacts in
  let email := cf_email contacts in
  let telegram := cf_telegram contacts in
  let otherContact := cf_otherContact contacts in
  if negb (present phone) && negb (present email)
     && negb (present telegram) && negb (present otherContact)
  then Some (js "Укажите хотя бы один способ связи")
  else if present email
          && negb (validateEmail (default [] email))
  then Some (js "Некорректный email адрес")
  else if present telegram
          && negb (validateTelegram (default [] telegram))
  then
    Some (js "Некорректный Telegram username (формат: @username, 5-32 символа)")
  else None.

(** [getImageUrl]: [None] for [null]. *)
Definition getImageUrl (imagePath : option str) : option str :=
  match imagePath with
  | Some path =>
      if negb (truthy path) then None
      else if startsWith path (js "http") then Some path
      else Some (js "http://localhost:3000/" ++ path)
  | None => None
  end.

End ClientForm.

(** ** The other handlers of the server *)

(** The list answered by [GET /api/cities/popular]. *)
Definition popularCities : list str := map js [
    "Москва"; "Санкт-Петербург"; "Новосибирск"; "Екатеринбург"; "Казань";
    "Нижний Новгород"; "Челябинск"; "Самара"; "Омск"; "Ростов-на-Дону";
    "Уфа"; "Красноярск"; "Воронеж"; "Пермь"; "Волгоград"
  ]%string.

(** [generateId], from the value of [Date.now()] and the nine characters
    taken from [Math.random().toString(36)]. *)
Definition generateId (now : Z) (random : str) : str :=
  js "project_" ++ decimal now ++ js "_" ++ random.

(** What the creation handler uses of the host besides [Host]: [Number(s)],
    [isNaN(n)], [n <= 0], and [JSON.parse] and [JSON.stringify] on the
    contact object.  [JSON.parse] throws on text that is not JSON; [Ok None]
    is the value [null], whose fields cannot be read; any other value is read
    through its four fields, which are strings when they are there. *)
Class FormHost : Type := {
  formHost :: Host;
  Number_parse : str -> Number;
  Number_isNaN : Number -> bool;
  Number_nonPositive : Number -> bool;
  JSON_parse_contact : str -> Exc (option ContactFields);
  JSON_stringify_contact : ContactFields -> str
}.

(** The fields of [req.body], the name of the stored upload ([req.file]),
    and what the request reads of the clock and of the random source. *)
Record CreateRequest : Type := {
  body_title : option str;
  body_tagline : option str;
  body_description : option str;
  body_city : option str;
  body_price : option str;
  body_contact : option str;
  file_filename : option str;
  idNow : Z;
  idRandom : str;
  createdNow : Z
}.

(** The answers of the creation handler: status 201 with the record,
    status 400 with a reason, status 500. *)
Inductive CreateResponse (Number : Type) : Type :=
| Created (project : Project Number)
| Refused (error : str)
| ServerError.
Arguments Created {Number} project.
Arguments Refused {Number} error.
Arguments ServerError {Number}.

Section Handlers.

Context {CM : CaseMapping} {F : FormHost}.

Local Open Scope io_scope.

(** Handler of [GET /api/projects]. *)
Definition getProjects : IO (Response (list (Project Number))) :=
  tryCatch
    (projects <- readProjects ;;
     ret (Reply projects))
    (ret (Failure 500 (js "Ошибка сервера при получении проектов"))).

(** Handler of [GET /api/projects/:id]. *)
Definition getProjectById (idParam : str) : IO (Response (Project Number)) :=
  tryCatch
    (projects <- readProjects ;;
     match List.find (fun p => bool_decide (id p = idParam)) projects with
     | Some project => ret (Reply project)
     | None => ret (Failure 404 (js "Проект не найден"))
     end)
    (ret (Failure 500 (js "Ошибка сервера при получении проекта"))).

(** [!field || !field.trim()] *)
Definition blankField (field : option str) : bool :=
  match field with
  | Some s => negb (truthy s) || negb (truthy (trim s))
  | None => true
  end.

(** The names of the required fields that the request leaves out. *)
Definition missingFields (req : CreateRequest) : list str :=
  (if blankField (body_title req) then [js "Название проекта"] else [])
  ++ (if blankField (body_tagline req) then [js "Краткое описание"] else [])
  ++ (if blankField (body_description req)
      then [js "Подробное описание"] else [])
  ++ (if blankField (body_city req) then [js "Город"] else [])
  ++ (if negb (present (body_price req)) then [js "Стоимость"] else [])
  ++ (if negb (present (body_contact req))
      then [js "Контактная информация"] else []).

(** [x || undefined] on a field. *)
Definition orUndefined (o : option str) : option str :=
  if present o then o else None.

(** Handler of [POST /api/projects]. *)
Definition createProject (req : CreateRequest)
    : IO (CreateResponse Number) :=
  tryCatch
    (let title := default [] (body_title req) in
     let tagline := default [] (body_tagline req) in
     let description := default [] (body_description req) in
     let city := default [] (body_city req) in
     let price := default [] (body_price req) in
     let contact := default [] (body_contact req) in
     if (0 <? length (missingFields req))%nat then
       ret (Refused
              (js "Не заполнены обязательные поля: "
               ++ join (js ", ") (missingFields req)))
     else if negb (validateCity (trim city)) then
       ret (Refused
              (js "Указанный город не найден в списке российских городов"))
     else
       match JSON_parse_contact contact with
       | Throw =>
           ret (Refused (js "Некорректный формат контактной информации"))
       | Ok None => throw
       | Ok (Some contacts) =>
           let rawPhone := cf_phone contacts in
           let email := cf_email contacts in
           let telegram := cf_telegram contacts in
           let otherContact := cf_otherContact contacts in
           if negb (present rawPhone) && negb (present email)
              && negb (present telegram) && negb (present otherContact)
           then ret (Refused (js "Укажите хотя бы один способ связи"))
           else
             let phone :=
               if present rawPhone
               then Some (formatPhone (default [] rawPhone))
               else rawPhone in
             if present rawPhone
                && negb (validatePhone (default [] phone))
             then
               ret (Refused
                      (js "Некорректный номер телефона. Используйте формат: +7 XXX XXX-XX-XX"))
             else if present email
                     && negb (validateEmail (default [] email))
             then ret (Refused (js "Некорректный email адрес"))
             else if present telegram
                     && negb (validateTelegram (default [] telegram))
             then
               ret (Refused
                      (js "Некорректный Telegram username. Формат: @username (5-32 символа)"))
             else
               let priceNum := Number_parse price in
               if Number_isNaN priceNum || Number_nonPositive priceNum
               then
                 ret (Refused
                        (js "Стоимость должна быть положительным числом"))
               else
                 projects <- readProjects ;;
                 let newProject :=
                   {| id := generateId (idNow req) (idRandom req);
                      title := trim title;
                      tagline := trim tagline;
                      description := trim description;
                      image :=
                        match file_filename req with
                        | Some filename => Some (js "uploads/" ++ filename)
                        | None => None
                        end;
                      city := trim city;
                      price := priceNum;
                      contact :=
                        JSON_stringify_contact
                          {| cf_phone := Some (orEmpty phone);
                             cf_email := Some (orEmpty email);
                             cf_telegram := Some (orEmpty telegram);
                             cf_otherContact := Some (orEmpty otherContact)
                          |};
                      phone := orUndefined phone;
                      email := orUndefined email;
                      telegram := orUndefined telegram;
                      otherContact := orUndefined otherContact;
                      createdAt := JSDate.isoString (createdNow req) |} in
                 let projects := projects ++ [newProject] in
                 writeProjects projects ;;;
                 ret (Created newProject)
       end)
    (ret ServerError).

End Handlers.

(** ** A second host for evaluation

    A host whose backing document is read back as it was written, for
    collections of at most one record: the text [[]] stands for the empty
    collection, any other text for the collection [stored]. *)

Definition emptyOrStored (stored : list (Project Z)) : Host :=
  {| Number := Z;
     Number_toString := decimal;
     JSON_parse_projects :=
       fun text => if bool_decide (text = js "[]") then Ok [] else Ok stored;
     JSON_stringify_projects :=
       fun projects =>
         match projects with [] => js "[]" | _ => js "[...]" end;
     JSON_parse_contacts := fun _ => Ok (Some sampleContacts);
     Date_parse := JSDate.parseIso;
     dirname := js "/srv/server";
     path_join := fun a b => a ++ js "/" ++ b |}.

(** Prices that are decimal numerals, every other text being read as the
    value that is not a number, which [-1] stands for and which is not
    below or equal to zero; and a contact object fixed beforehand. *)
Definition sampleFormHost (stored : list (Project Z))
    (contacts : ContactFields) : FormHost :=
  {| formHost := emptyOrStored stored;
     Number_parse :=
       fun s =>
         match JSDate.numeral 0 s with Some n => n | None => (-1)%Z end;
     Number_isNaN := fun n => (n <? 0)%Z;
     Number_nonPositive := fun n => (n =? 0)%Z;
     JSON_parse_contact := fun _ => Ok (Some contacts);
     JSON_stringify_contact := fun _ => js "{...}" |}.

Definition sampleFields : ContactFields :=
  {| cf_phone := Some (js "8 912 345 67 89");
     cf_email := Some (js "Owner@Example.org");
     cf_telegram := Some (js "@listing_owner");
     cf_otherContact := None |}.

Definition sampleRequest : CreateRequest :=
  {| body_title := Some (js "  Stand 3x2 ");
     body_tagline := Some (js "Fair stand, assembled");
     body_description := Some (js "Frame, panels and light");
     body_city := Some (js " москва ");
     body_price := Some (js "15000");
     body_contact := Some (js "{...}");
     file_filename := Some (js "1705357800000-123456789.png");
     idNow := 1705357800000;
     idRandom := js "k3x9q2m1z";
     createdNow := 1705357800001 |}.

Definition emptyStoreFS : FS :=
  {| nodes :=
       {[ js "/srv/server/projects.json" := File (js "[]");
          js "/srv/server/uploads" := Directory;
          js "/srv/server/uploads/" := Directory ]};
     calls := [] |}.

(** A server whose backing document's path names a directory. *)
Definition directoryStoreFS : FS :=
  {| nodes :=
       {[ js "/srv/server/projects.json" := Directory;
          js "/srv/server/uploads" := Directory;
          js "/srv/server/uploads/" := Directory ]};
     calls := [] |}.

(** The sample record with the uploads directory itself as its image. *)
Definition sampleUploadsDirectory : Project Z :=
  {| id := id sampleProject;
     title := title sampleProject;
     tagline := tagline sampleProject;
     description := description sampleProject;
     image := Some (js "uploads/");
     city := city sampleProject;
     price := price sampleProject;
     contact := contact sampleProject;
     phone := phone sampleProject;
     email := email sampleProject;
     telegram := telegram sampleProject;
     otherContact := otherContact sampleProject;
     createdAt := createdAt sampleProject |}.

(** ** The shapes of an e-mail address *)

(** Non-empty atoms, free of the excluded characters, joined by full
    stops. *)
Definition DottedAtoms (s : str) : Prop :=
  exists atoms,
    atoms <> []
    /\ Forall (fun a => a <> [] /\ Forall (fun c => isAtomChar c = true) a)
         atoms
    /\ s = join [46] atoms.

(** A non-empty text without line terminator between quotation marks. *)
Definition QuotedText (s : str) : Prop :=
  exists q,
    q <> [] /\ Forall (fun c => isDotChar c = true) q /\ s = [34] ++ q ++ [34].

(** One to three digits. *)
Definition Octet (o : str) : Prop :=
  (1 <= length o <= 3)%nat /\ Forall (fun c => isDigit c = true) o.

(** Four octets separated by full stops, between square brackets. *)
Definition AddressLiteral (d : str) : Prop :=
  exists o1 o2 o3 o4,
    Octet o1 /\ Octet o2 /\ Octet o3 /\ Octet o4
    /\ d = [91] ++ o1 ++ [46] ++ o2 ++ [46] ++ o3 ++ [46] ++ o4 ++ [93].

(** One or more non-empty labels of letters, digits and hyphens, each
    followed by a full stop, then at least two letters. *)
Definition HostName (d : str) : Prop :=
  exists labels tld,
    labels <> []
    /\ Forall (fun l => l <> [] /\ Forall (fun c => isLabelChar c = true) l)
         labels
    /\ (2 <= length tld)%nat
    /\ Forall (fun c => isLetter c = true) tld
    /\ d = flat_map (fun l => l ++ [46]) labels ++ tld.

(** The characters of a domain: letters, digits, the hyphen, the full
    stop and the square brackets. *)
Definition isDomainChar (c : N) : bool :=
  isLabelChar c || (c =? 46) || (c =? 91) || (c =? 93).

(** The collection that the backing document holds for [readProjects]: its
    parsed content, and nothing when it is missing or does not parse. *)
Definition storedProjects {H : Host} (fs : FS) : list (Project Number) :=
  match files fs !! DATA_FILE with
  | Some data =>
      match JSON_parse_projects data with
      | Ok parsed => parsed
      | Throw => []
      end
  | None => []
  end.

(** [p] is the first record of [projects] with the identifier [i]. *)
Definition FirstWithId {Number : Type} (i : str) (p : Project Number)
    (projects : list (Project Number)) : Prop :=
  exists before after,
    projects = before ++ p :: after
    /\ id p = i /\ Forall (fun q => id q <> i) before.

(** ** What the creation handler accepts and builds *)

Section CreateSpec.

Context {CM : CaseMapping} {F : FormHost}.

(** The record built from a request and its parsed contact object. *)
Definition builtProject (req : CreateRequest) (contacts : ContactFields)
    : Project Number :=
  let phone :=
    if present (cf_phone contacts)
    then Some (formatPhone (default [] (cf_phone contacts)))
    else cf_phone contacts in
  {| id := generateId (idNow req) (idRandom req);
     title := trim (default [] (body_title req));
     tagline := trim (default [] (body_tagline req));
     description := trim (default [] (body_description req));
     image :=
       match file_filename req with
       | Some filename => Some (js "uploads/" ++ filename)
       | None => None
       end;
     city := trim (default [] (body_city req));
     price := Number_parse (default [] (body_price req));
     contact :=
       JSON_stringify_contact
         {| cf_phone := Some (orEmpty phone);
            cf_email := Some (orEmpty (cf_email contacts));
            cf_telegram := Some (orEmpty (cf_telegram contacts));
            cf_otherContact := Some (orEmpty (cf_otherContact contacts)) |};
     phone := orUndefined phone;
     email := orUndefined (cf_email contacts);
     telegram := orUndefined (cf_telegram contacts);
     otherContact := orUndefined (cf_otherContact contacts);
     createdAt := JSDate.isoString (createdNow req) |}.

(** The requests that are accepted: no required field is left out, the
    trimmed city is valid, the contact text parses to an object that the
    client's [validateContacts] accepts and whose phone, when given, has
    eleven digits, and the price is a number above zero. *)
Definition AcceptedRequest (req : CreateRequest) (contacts : ContactFields)
    : Prop :=
  missingFields req = []
  /\ validateCity (trim (default [] (body_city req))) = true
  /\ JSON_parse_contact (default [] (body_contact req)) = Ok (Some contacts)
  /\ ClientForm.validateContacts contacts = None
  /\ (present (cf_phone contacts) = true ->
      length (stripNonDigits (default [] (cf_phone contacts))) = 11%nat)
  /\ Number_isNaN (Number_parse (default [] (body_price req))) = false
  /\ Number_nonPositive (Number_parse (default [] (body_price req))) = false.

(** The file system after the backing document has been read and the
    collection [projects] written to it. *)
Definition afterWrite (fs : FS) (projects : list (Project Number)) : FS :=
  {| nodes :=
       <[DATA_FILE := File (JSON_stringify_projects projects)]> (nodes fs);
     calls :=
       calls fs
       ++ [CallRead DATA_FILE;
           CallWrite DATA_FILE (JSON_stringify_projects projects)] |}.

(** The file system after the same two calls when the write has failed. *)
Definition afterFailedWrite (fs : FS) (projects : list (Project Number))
    : FS :=
  {| nodes := nodes fs;
     calls :=
       calls fs
       ++ [CallRead DATA_FILE;
           CallWrite DATA_FILE (JSON_stringify_projects projects)] |}.

End CreateSpec.

(** The record that the sample request creates. *)
Definition createdSample : Project Z :=
  builtProject (F := sampleFormHost [] sampleFields) sampleRequest
    sampleFields.

(** ** The client's validation of the whole form *)

Module ClientProjectForm.

(** The object that [collectProjectFormData] builds, without its image. *)
Record FormData : Type := {
  form_title : option str;
  form_tagline : option str;
  form_description : option str;
  form_city : option str;
  form_price : option str;
  form_contacts : ContactFields
}.

(** [validateProjectForm]: the list of the errors. *)
Definition validateProjectForm {CM : CaseMapping} {F : FormHost}
    (formData : FormData) : list str :=
  (if blankField (form_title formData)
   then [js "Введите название проекта"] else [])
  ++ (if blankField (form_tagline formData)
      then [js "Введите краткое описание"] else [])
  ++ (if blankField (form_description formData)
      then [js "Введите подробное описание"] else [])
  ++ (if blankField (form_city formData) then [js "Введите город"] else [])
  ++ (if negb (present (form_price formData))
         || Number_nonPositive
              (Number_parse (default [] (form_price formData)))
      then [js "Введите корректную стоимость"] else [])
  ++ (match ClientForm.validateContacts (form_contacts formData) with
      | Some contactError =>
          if truthy contactError then [contactError] else []
      | None => []
      end).

End ClientProjectForm.

(** The request that carries a form: its fields as they are, and the
    contact object as a text. *)
Definition requestOfForm (formData : ClientProjectForm.FormData)
    (contactText : str) (filename : option str) (now1 : Z) (random : str)
    (now2 : Z) : CreateRequest :=
  {| body_title := ClientProjectForm.form_title formData;
     body_tagline := ClientProjectForm.form_tagline formData;
     body_description := ClientProjectForm.form_description formData;
     body_city := ClientProjectForm.form_city formData;
     body_price := ClientProjectForm.form_price formData;
     body_contact := Some contactText;
     file_filename := filename;
     idNow := now1;
     idRandom := random;
     createdNow := now2 |}.

Definition sampleForm (price : str) : ClientProjectForm.FormData :=
  {| ClientProjectForm.form_title := Some (js "Stand 3x2");
     ClientProjectForm.form_tagline := Some (js "Fair stand, assembled");
     ClientProjectForm.form_description := Some (js "Frame, panels and light");
     ClientProjectForm.form_city := Some (js "Москва");
     ClientProjectForm.form_price := Some price;
     ClientProjectForm.form_contacts := sampleFields |}.

(* ================================================================= *)
(** * Properties *)

(** ** Strings *)

Lemma startsWith_iff (s t : str) :
  startsWith s t = true <-> exists rest, s = t ++ rest.
Proof.
  revert s; induction t as [|b t IH]; intros s; simpl.
  - split; [intros _; now exists s | reflexivity].
  - destruct s as [|a s].
    + split; [discriminate | intros [r Hr]; discriminate].
    + rewrite andb_true_iff, N.eqb_eq, IH. split.
      * intros [-> [r ->]]. now exists r.
      * intros [r Hr]. injection Hr as -> ->. split; [reflexivity | now exists r].
Qed.

Lemma includes_iff (s t : str) :
  includes s t = true <-> exists before after, s = before ++ t ++ after.
Proof.
  induction s as [|a s IH]; simpl.
  - rewrite orb_false_r, startsWith_iff. split.
    + intros [r Hr]. now exists [], r.
    + intros [b [r Hr]]. destruct b; [now exists r | discriminate].
  - rewrite orb_true_iff, startsWith_iff, IH. split.
    + intros [[r Hr] | [b [r Hr]]].
      * now exists [], r.
      * exists (a :: b), r. simpl. now rewrite Hr.
    + intros [b [r Hr]]. destruct b as [|a' b].
      * left. now exists r.
      * right. injection Hr as _ Hr. now exists b, r.
Qed.

Lemma truthy_false_iff (s : str) : truthy s = false <-> s = [].
Proof. destruct s; simpl; split; congruence. Qed.

Lemma find_first {A} (p : A -> bool) (l : list A) :
  match List.find p l with
  | Some x =>
      exists before after,
        l = before ++ x :: after /\ p x = true
        /\ Forall (fun y => p y = false) before
  | None => Forall (fun y => p y = false) l
  end.
Proof.
  induction l as [|a l IH]; simpl.
  - constructor.
  - destruct (p a) eqn:Ha.
    + exists [], l. repeat split; [assumption | constructor].
    + destruct (List.find p l) as [x|].
      * destruct IH as (before & after & -> & Hx & Hb).
        exists (a :: before), after. repeat split; [assumption|].
        now constructor.
      * now constructor.
Qed.

(** ** Dates *)

Example isoString_epoch :
  JSDate.isoString 0 = js "1970-01-01T00:00:00.000Z"
  /\ JSDate.isoString (-1) = js "1969-12-31T23:59:59.999Z"
  /\ JSDate.isoString 951827696789 = js "2000-02-29T12:34:56.789Z"
  /\ JSDate.isoString 253402300800000 = js "+010000-01-01T00:00:00.000Z".
Proof. repeat split; vm_compute; reflexivity. Qed.

Example parseIso_isoString :
  JSDate.parseIso (js "2024-01-15T22:30:00.000Z") = Some 1705357800000%Z
  /\ JSDate.isoString 1705357800000 = js "2024-01-15T22:30:00.000Z"
  /\ JSDate.parseIso (js "2023-02-29T00:00:00.000Z") = None
  /\ JSDate.parseIso (js "15.01.2024") = None.
Proof. repeat split; vm_compute; reflexivity. Qed.

(** ** City directory *)

Lemma directory_entries_nonempty :
  Forall (fun entry => truthy entry = true) RUSSIAN_CITIES.
Proof. apply List.Forall_forall, forallb_forall. vm_compute. reflexivity. Qed.

Section CityDirectoryFacts.

Context {CM : CaseMapping}.

Lemma toLowerCase_nil : toLowerCase [] = [].
Proof. now apply toLowerCase_nil_iff. Qed.

Lemma validateCity_true_iff (name : str) :
  validateCity name = true
  <-> exists entry,
        In entry RUSSIAN_CITIES /\ toLowerCase entry = toLowerCase name.
Proof.
  unfold validateCity. destruct name as [|c name]; cbn [negb truthy].
  - split; [discriminate|]. intros (entry & Hin & Heq).
    rewrite toLowerCase_nil in Heq.
    apply (proj1 (toLowerCase_nil_iff entry)) in Heq. subst.
    pose proof directory_entries_nonempty as Hne.
    rewrite List.Forall_forall in Hne. apply Hne in Hin. simpl in Hin. discriminate.
  - rewrite existsb_exists. split.
    + intros (entry & Hin & Heq). apply bool_decide_eq_true in Heq. eauto.
    + intros (entry & Hin & Heq). exists entry. split; [assumption|].
      now apply bool_decide_eq_true.
Qed.

End CityDirectoryFacts.

(** C2.  [validateCity name] is true exactly when the name equals some
    directory entry once case is ignored (the whole name, not a prefix or a
    part of it); so it is true for every spelling of an entry in another
    letter case, false for the empty string and false for a name equal to
    no entry. *)
Theorem validateCity_case_insensitive_member {CM : CaseMapping} :
  (forall name,
     validateCity name = true
     <-> exists entry,
           In entry RUSSIAN_CITIES /\ toLowerCase entry = toLowerCase name)
  /\ (forall entry name,
        In entry RUSSIAN_CITIES -> toLowerCase name = toLowerCase entry ->
        validateCity name = true)
  /\ validateCity [] = false
  /\ (forall name,
        (forall entry,
           In entry RUSSIAN_CITIES -> toLowerCase entry <> toLowerCase name) ->
        validateCity name = false).
Proof.
  split; [exact validateCity_true_iff|]. split; [|split].
  - intros entry name Hin Heq. apply validateCity_true_iff. eauto.
  - reflexivity.
  - intros name Hno. apply not_true_is_false. intros Hv.
    apply validateCity_true_iff in Hv. destruct Hv as (entry & Hin & Heq).
    exact (Hno entry Hin Heq).
Qed.

Lemma validateCity_upper_case_witness :
  validateCity (CM := basicCaseMapping) (js "МОСКВА") = true.
Proof.
  apply (proj1 (proj2 (@validateCity_case_insensitive_member basicCaseMapping))
           (js "Москва")).
  - vm_compute. left. reflexivity.
  - vm_compute. reflexivity.
Defined.

Section SuggestionFacts.

Context {CM : CaseMapping}.

Lemma find_FirstEntry (p : str -> bool) (P : str -> Prop) :
  (forall e, p e = true <-> P e) ->
  FirstEntry P (List.find p RUSSIAN_CITIES).
Proof.
  intros HpP. pose proof (find_first p RUSSIAN_CITIES) as Hf.
  assert (Hneg : forall l, Forall (fun y => p y = false) l ->
                           Forall (fun e => ~ P e) l).
  { intros l Hl. eapply List.Forall_impl; [|exact Hl]. simpl.
    intros e He HP. apply HpP in HP. congruence. }
  unfold FirstEntry. destruct (List.find p RUSSIAN_CITIES) as [x|].
  - destruct Hf as (before & after & Heq & Hx & Hb).
    exists before, after. split; [exact Heq|]. split; [now apply HpP|auto].
  - auto.
Qed.

Lemma find_directory_truthy (p : str -> bool) (entry : str) :
  List.find p RUSSIAN_CITIES = Some entry -> truthy entry = true.
Proof.
  intros Hf. apply find_some in Hf. destruct Hf as [Hin _].
  pose proof directory_entries_nonempty as Hne.
  rewrite List.Forall_forall in Hne. now apply Hne.
Qed.

End SuggestionFacts.

(** C3.  For a name that [validateCity] rejects, the suggestion is the
    first directory entry, in enumeration order, that starts with the name
    once case is ignored; when no entry does, the first entry that contains
    the name; and none when no entry contains it.  The computation is total:
    it has a result, and raises no exception, on every name. *)
Theorem suggestion_first_prefix_then_first_containing {CM : CaseMapping}
    (name : str) :
  validateCity name = false ->
  (exists entry,
     suggestion name = Some entry
     /\ FirstEntry (StartsWithCI name) (Some entry))
  \/ (FirstEntry (StartsWithCI name) None
      /\ FirstEntry (ContainsCI name) (suggestion name)).
Proof.
  intros Hinvalid. unfold suggestion. rewrite Hinvalid. cbn [negb].
  set (pre := fun russianCity : str =>
                startsWith (toLowerCase russianCity) (toLowerCase name)).
  set (sub := fun russianCity : str =>
                includes (toLowerCase russianCity) (toLowerCase name)).
  pose proof (find_FirstEntry pre (StartsWithCI name)
                (fun e => startsWith_iff _ _)) as Hpre.
  pose proof (find_FirstEntry sub (ContainsCI name)
                (fun e => includes_iff _ _)) as Hsub.
  destruct (List.find pre RUSSIAN_CITIES) as [entry|] eqn:Hfind.
  - left. exists entry. split; [|exact Hpre].
    cbn [truthyOpt]. now rewrite (find_directory_truthy _ _ Hfind).
  - right. split; [exact Hpre|]. cbn [truthyOpt negb].
    now destruct (List.find sub RUSSIAN_CITIES).
Qed.

Lemma suggestion_witness :
  validateCity (CM := basicCaseMapping) (js "бург") = false
  /\ ((exists entry,
         suggestion (CM := basicCaseMapping) (js "бург") = Some entry
         /\ FirstEntry (StartsWithCI (CM := basicCaseMapping) (js "бург"))
              (Some entry))
      \/ (FirstEntry (StartsWithCI (CM := basicCaseMapping) (js "бург")) None
          /\ FirstEntry (ContainsCI (CM := basicCaseMapping) (js "бург"))
               (suggestion (CM := basicCaseMapping) (js "бург")))).
Proof.
  split; [vm_compute; reflexivity|].
  apply (@suggestion_first_prefix_then_first_containing basicCaseMapping).
  vm_compute. reflexivity.
Defined.

(** ** Search *)

Lemma trim_nil : trim [] = [].
Proof. reflexivity. Qed.

Lemma arrayIncludes_filter (p : str -> bool) (l : list str) (x : str) :
  In x l -> arrayIncludes (List.filter p l) x = p x.
Proof.
  intros Hin. unfold arrayIncludes. destruct (p x) eqn:Hp.
  - apply existsb_exists. exists x. split.
    + apply filter_In. now split.
    + now apply bool_decide_eq_true.
  - apply not_true_is_false. intros He. apply existsb_exists in He.
    destruct He as (y & Hy & Heq). apply bool_decide_eq_true in Heq. subst y.
    apply filter_In in Hy. destruct Hy as [_ Hy]. congruence.
Qed.

Section SearchFacts.

Context {CM : CaseMapping}.

Lemma prefixMatch_iff (term city : str) :
  prefixMatch term city = true
  <-> exists rest, toLowerCase city = term ++ rest.
Proof. apply startsWith_iff. Qed.

Lemma wordMatch_iff (term city : str) :
  wordMatch term city = true
  <-> exists word rest,
        In word (splitRuns isHyphenOrSpace (toLowerCase city))
        /\ word = term ++ rest.
Proof.
  unfold wordMatch. rewrite existsb_exists. split.
  - intros (word & Hin & Hw). apply startsWith_iff in Hw.
    destruct Hw as [rest ->]. eauto.
  - intros (word & rest & Hin & ->). exists (term ++ rest).
    split; [assumption|]. apply startsWith_iff. eauto.
Qed.

Lemma getCities_at_most_fifteen (query : option str) :
  (length (getCities query) <= 15)%nat.
Proof.
  unfold getCities. destruct query as [query|]; [|simpl; lia].
  destruct (truthy query && truthy (trim query)); [|simpl; lia].
  apply firstn_le_length.
Qed.

Lemma getCities_in_directory (query : option str) (city : str) :
  In city (getCities query) -> In city RUSSIAN_CITIES.
Proof.
  unfold getCities. destruct query as [query|]; [|intros []].
  destruct (truthy query && truthy (trim query)); [|intros []].
  intros Hin.
  match type of Hin with
  | In _ (firstn ?n ?l) =>
      assert (Hin' : In city l)
        by (rewrite <- (firstn_skipn n l); apply in_or_app; now left)
  end.
  clear Hin. rename Hin' into Hin.
  destruct (_ <? _)%nat.
  - apply in_app_or in Hin. destruct Hin as [Hin | Hin];
      apply filter_In in Hin; tauto.
  - apply filter_In in Hin. tauto.
Qed.

End SearchFacts.

(** C1 (as amended).  The search answers the empty sequence to an empty or
    blank query; otherwise, with the query lower-cased and freed of the
    white space around it as the term, the directory entries whose
    lower-cased name starts with the term, in directory order, followed,
    only when these are fewer than ten, by the entries not among them with
    a word (a piece between hyphens and white space) starting with the
    term, also in directory order, the whole cut to its first fifteen
    entries. *)
Theorem getCities_is_search_on_trimmed_query {CM : CaseMapping}
    (query : str) :
  getCities (Some query) = searchOnTrimmedQuery query.
Proof.
  unfold getCities, searchOnTrimmedQuery, isBlank.
  destruct (truthy (trim query)) eqn:Htrim.
  - assert (Hq : truthy query = true).
    { destruct query; [rewrite trim_nil in Htrim; discriminate | reflexivity]. }
    rewrite Hq. cbn [andb negb]. unfold matchesFor.
    set (term := trim (toLowerCase query)).
    change (List.filter (fun city => startsWith (toLowerCase city) term)
              RUSSIAN_CITIES)
      with (List.filter (prefixMatch term) RUSSIAN_CITIES).
    set (prefixMatches := List.filter (prefixMatch term) RUSSIAN_CITIES).
    f_equal.
    destruct (length prefixMatches <? 10)%nat; [|now rewrite app_nil_r].
    f_equal. apply filter_ext_in. intros city Hin.
    unfold prefixMatches. rewrite (arrayIncludes_filter _ _ _ Hin).
    unfold wordMatch. now destruct (prefixMatch term city).
  - rewrite andb_false_r. reflexivity.
Qed.

(** C1, as worded, fails on a query with white space around it: the query
    [" москва"] finds [Москва], which does not start with a space. *)
Lemma getCities_differs_from_search_on_query :
  getCities (CM := basicCaseMapping) (Some (js " москва")) = [js "Москва"]
  /\ searchOnQuery (CM := basicCaseMapping) (js " москва") = []
  /\ getCities (CM := basicCaseMapping) (Some (js " москва"))
     <> searchOnQuery (CM := basicCaseMapping) (js " москва").
Proof.
  split; [vm_compute; reflexivity|].
  split; [vm_compute; reflexivity|].
  vm_compute. discriminate.
Qed.

(** ** Phone numbers *)

Lemma stripNonDigits_digits (s : str) :
  Forall (fun c => isDigit c = true) (stripNonDigits s).
Proof.
  apply List.Forall_forall. intros c Hc. unfold stripNonDigits in Hc.
  apply filter_In in Hc. tauto.
Qed.

Lemma length_eleven (l : list N) :
  length l = 11%nat ->
  exists d1 d2 d3 d4 d5 d6 d7 d8 d9 d10 d11,
    l = [d1; d2; d3; d4; d5; d6; d7; d8; d9; d10; d11].
Proof.
  intros H.
  do 11 (destruct l as [|? l]; [discriminate|]).
  destruct l; [|discriminate]. repeat eexists.
Qed.

(** The server and the client format a phone number by the same text. *)
Lemma Client_formatPhone_eq (phone : str) :
  Client.formatPhone phone = formatPhone phone.
Proof. reflexivity. Qed.

Lemma formatPhone_eleven (raw : str) d1 d2 d3 d4 d5 d6 d7 d8 d9 d10 d11 :
  stripNonDigits raw = [d1; d2; d3; d4; d5; d6; d7; d8; d9; d10; d11] ->
  formatPhone raw = phoneLayout d2 d3 d4 d5 d6 d7 d8 d9 d10 d11.
Proof.
  intros Hd. unfold formatPhone.
  destruct raw as [|c raw]; [discriminate|]. cbn [truthy negb].
  rewrite Hd. cbn [length Nat.eqb].
  destruct (startsWith _ (js "8")); reflexivity.
Qed.

Lemma formatPhone_other (raw : str) :
  length (stripNonDigits raw) <> 11%nat -> formatPhone raw = raw.
Proof.
  intros Hlen. unfold formatPhone.
  destruct raw as [|c raw]; [reflexivity|]. cbn [truthy negb].
  apply Nat.eqb_neq in Hlen. now rewrite Hlen.
Qed.

Lemma stripNonDigits_phoneLayout d2 d3 d4 d5 d6 d7 d8 d9 d10 d11 :
  Forall (fun c => isDigit c = true) [d2; d3; d4; d5; d6; d7; d8; d9; d10; d11] ->
  stripNonDigits (phoneLayout d2 d3 d4 d5 d6 d7 d8 d9 d10 d11)
  = [55; d2; d3; d4; d5; d6; d7; d8; d9; d10; d11].
Proof.
  intros Hd.
  repeat match goal with
         | H : Forall _ (_ :: _) |- _ => inversion_clear H
         end.
  unfold stripNonDigits, phoneLayout.
  change (js "+7 (") with [43; 55; 32; 40].
  change (js ") ") with [41; 32]. change (js "-") with [45].
  cbn [app List.filter].
  repeat match goal with H : isDigit _ = true |- _ => rewrite H; clear H end.
  reflexivity.
Qed.

(** C4.  [formatPhone raw] keeps the digits of [raw]; when they are exactly
    eleven it answers [+7 (XXX) XXX-XX-XX] written with the second to the
    eleventh of them, the first one being dropped whatever it is; in every
    other case it answers [raw] itself. *)
Theorem formatPhone_layout_or_unchanged (raw : str) :
  let digits := List.filter isDigit raw in
  (length digits = 11%nat ->
   exists d1 d2 d3 d4 d5 d6 d7 d8 d9 d10 d11,
     digits = [d1; d2; d3; d4; d5; d6; d7; d8; d9; d10; d11]
     /\ formatPhone raw
        = js "+7 (" ++ [d2; d3; d4] ++ js ") " ++ [d5; d6; d7] ++ js "-"
          ++ [d8; d9] ++ js "-" ++ [d10; d11])
  /\ (length digits <> 11%nat -> formatPhone raw = raw).
Proof.
  intros digits. split.
  - intros Hlen.
    destruct (length_eleven _ Hlen)
      as (d1 & d2 & d3 & d4 & d5 & d6 & d7 & d8 & d9 & d10 & d11 & Hd).
    exists d1, d2, d3, d4, d5, d6, d7, d8, d9, d10, d11.
    split; [exact Hd|]. now apply (formatPhone_eleven raw d1).
  - apply formatPhone_other.
Qed.

Lemma formatPhone_witness :
  formatPhone (js "8 (912) 345-67-89") = js "+7 (912) 345-67-89"
  /\ formatPhone (js "912 345") = js "912 345".
Proof.
  pose proof (formatPhone_layout_or_unchanged (js "8 (912) 345-67-89")) as H1.
  pose proof (formatPhone_layout_or_unchanged (js "912 345")) as H2.
  split.
  - destruct (proj1 H1 eq_refl)
      as (d1 & d2 & d3 & d4 & d5 & d6 & d7 & d8 & d9 & d10 & d11 & Hd & Hf).
    vm_compute in Hd. injection Hd as <- <- <- <- <- <- <- <- <- <- <-.
    exact Hf.
  - apply (proj2 H2). vm_compute. discriminate.
Defined.

(** C8.  On an input with exactly eleven digits, formatting the formatted
    number again changes nothing: the result, and so its digits, are those
    of the first formatting. *)
Theorem formatPhone_idempotent_on_eleven_digits (x : str) :
  length (stripNonDigits x) = 11%nat ->
  stripNonDigits (formatPhone (formatPhone x)) = stripNonDigits (formatPhone x)
  /\ formatPhone (formatPhone x) = formatPhone x.
Proof.
  intros Hlen.
  destruct (length_eleven _ Hlen)
    as (d1 & d2 & d3 & d4 & d5 & d6 & d7 & d8 & d9 & d10 & d11 & Hd).
  pose proof (stripNonDigits_digits x) as Hall. rewrite Hd in Hall.
  inversion_clear Hall as [|? ? _ Hrest].
  pose proof (stripNonDigits_phoneLayout _ _ _ _ _ _ _ _ _ _ Hrest) as Hstrip.
  rewrite (formatPhone_eleven x _ _ _ _ _ _ _ _ _ _ _ Hd).
  rewrite (formatPhone_eleven _ _ _ _ _ _ _ _ _ _ _ _ Hstrip).
  split; reflexivity.
Qed.

Lemma formatPhone_idempotent_witness :
  length (stripNonDigits (js "8 912 345 67 89")) = 11%nat
  /\ formatPhone (formatPhone (js "8 912 345 67 89"))
     = formatPhone (js "8 912 345 67 89").
Proof.
  split; [reflexivity|].
  apply (formatPhone_idempotent_on_eleven_digits (js "8 912 345 67 89")).
  reflexivity.
Defined.

(** C9.  A raw phone number with exactly eleven digits, whatever the first
    of them, is rewritten by [formatPhone] to begin with the literal [+7]:
    the digits of the formatted number are a [7] followed by the second to
    the eleventh digit of the raw one.  That is why the formatted number
    passes the validation that follows the formatting in the creation
    flow, also when the raw digits start with neither [7] nor [8]. *)
Theorem validatePhone_formatPhone_eleven_digits (raw : str) :
  length (stripNonDigits raw) = 11%nat ->
  startsWith (formatPhone raw) (js "+7") = true
  /\ stripNonDigits (formatPhone raw) = 55 :: drop 1 (stripNonDigits raw)
  /\ length (stripNonDigits (formatPhone raw)) = 11%nat
  /\ validatePhone (formatPhone raw) = true.
Proof.
  intros Hlen.
  destruct (length_eleven _ Hlen)
    as (d1 & d2 & d3 & d4 & d5 & d6 & d7 & d8 & d9 & d10 & d11 & Hd).
  pose proof (stripNonDigits_digits raw) as Hall. rewrite Hd in Hall.
  inversion_clear Hall as [|? ? _ Hrest].
  pose proof (stripNonDigits_phoneLayout _ _ _ _ _ _ _ _ _ _ Hrest) as Hstrip.
  rewrite (formatPhone_eleven raw _ _ _ _ _ _ _ _ _ _ _ Hd).
  unfold validatePhone. rewrite Hstrip, Hd.
  repeat split; reflexivity.
Qed.

Lemma validatePhone_formatPhone_witness :
  length (stripNonDigits (js "1 (234) 567-89-01")) = 11%nat
  /\ validatePhone (js "12345678901") = false
  /\ formatPhone (js "1 (234) 567-89-01") = js "+7 (234) 567-89-01"
  /\ startsWith (formatPhone (js "1 (234) 567-89-01")) (js "+7") = true
  /\ stripNonDigits (formatPhone (js "1 (234) 567-89-01"))
     = 55 :: drop 1 (stripNonDigits (js "1 (234) 567-89-01"))
  /\ length (stripNonDigits (formatPhone (js "1 (234) 567-89-01"))) = 11%nat
  /\ validatePhone (formatPhone (js "1 (234) 567-89-01")) = true.
Proof.
  split; [reflexivity|]. split; [reflexivity|]. split; [reflexivity|].
  apply (validatePhone_formatPhone_eleven_digits (js "1 (234) 567-89-01")).
  reflexivity.
Defined.

(** ** Record store *)

Section StoreFacts.

Context {H : Host}.

Lemma readProjects_run (fs : FS) :
  readProjects fs
  = (Ok match files fs !! DATA_FILE with
        | Some data =>
            match JSON_parse_projects data with
            | Ok parsed => parsed
            | Throw => []
            end
        | None => []
        end,
     record (CallRead DATA_FILE) fs).
Proof.
  unfold readProjects, tryCatch, bind, readFileSync, liftExc, ret.
  destruct (files fs !! DATA_FILE) as [data|]; [|reflexivity].
  destruct (JSON_parse_projects data); reflexivity.
Qed.

(** [writeProjects] does not throw: a directory in the place of the
    backing document makes the write fail, and the failure is dropped. *)
Lemma writeProjects_run (projects : list (Project Number)) (fs : FS) :
  writeProjects projects fs
  = (Ok tt,
     if isDirectory fs DATA_FILE then
       record (CallWrite DATA_FILE (JSON_stringify_projects projects)) fs
     else
       {| nodes :=
            <[DATA_FILE := File (JSON_stringify_projects projects)]> (nodes fs);
          calls :=
            calls fs
            ++ [CallWrite DATA_FILE (JSON_stringify_projects projects)] |}).
Proof.
  unfold writeProjects, tryCatch, writeFileSync, ret.
  destruct (isDirectory fs DATA_FILE); reflexivity.
Qed.

Lemma isDirectory_record (c : FsCall) (fs : FS) (path : str) :
  isDirectory (record c fs) path = isDirectory fs path.
Proof. reflexivity. Qed.

Lemma files_lookup (fs : FS) (path : str) :
  files fs !! path = nodes fs !! path ≫= fileContent.
Proof. apply lookup_omap. Qed.

Lemma files_lookup_Some (fs : FS) (path data : str) :
  files fs !! path = Some data <-> nodes fs !! path = Some (File data).
Proof.
  rewrite files_lookup.
  destruct (nodes fs !! path) as [[content|]|]; simpl; split; congruence.
Qed.



Lemma files_unlinked (path : str) (among : gmap str Node)
    (trace : list FsCall) :
  files {| nodes := delete path among; calls := trace |}
  = delete path (omap fileContent among).
Proof. unfold files. cbn [nodes]. apply omap_delete. Qed.


Lemma findIndex_split {A} (p : A -> bool) (l : list A) (i : nat) :
  findIndex p l = Some i ->
  exists before x after,
    l = before ++ x :: after /\ length before = i /\ p x = true
    /\ Forall (fun y => p y = false) before
    /\ l !! i = Some x /\ delete i l = before ++ after.
Proof.
  revert i; induction l as [|a l IH]; intros i; simpl; [discriminate|].
  destruct (p a) eqn:Ha.
  - intros [= <-]. exists [], a, l. repeat split; auto.
  - destruct (findIndex p l) as [j|]; [|discriminate]. intros [= <-].
    destruct (IH j eq_refl) as (before & x & after & -> & Hlen & Hx & Hb & Hl & Hd).
    exists (a :: before), x, after. simpl. rewrite Hlen.
    repeat split; auto. simpl in Hd. now rewrite Hd.
Qed.

Lemma removeImage_not_upload (project : Project Number) (fs : FS) :
  image project = None
  \/ (exists img,
        image project = Some img /\ startsWith img (js "uploads/") = false) ->
  removeImage project fs = (Ok tt, fs).
Proof.
  unfold removeImage. intros [-> | (img & -> & ->)]; [reflexivity|].
  now rewrite andb_false_r.
Qed.

End StoreFacts.

(** C7.  [readProjects] answers the sequence of records deserialized from
    the backing document; when the document cannot be read or its text
    cannot be parsed it answers the empty sequence; in no case does it
    throw to its caller. *)
Theorem readProjects_fail_soft {H : Host} (fs : FS) :
  exists projects,
    fst (readProjects fs) = Ok projects
    /\ match files fs !! DATA_FILE with
       | Some data =>
           match JSON_parse_projects data with
           | Ok parsed => projects = parsed
           | Throw => projects = []
           end
       | None => projects = []
       end.
Proof.
  rewrite readProjects_run. eexists. split; [reflexivity|].
  destruct (files fs !! DATA_FILE) as [data|]; [|reflexivity].
  destruct (JSON_parse_projects data); reflexivity.
Qed.



(** On the other path, an uploaded picture that exists is unlinked before
    the backing document is written. *)
Example deleteProject_unlinks_existing_upload :
  let H := fixedHost [sampleUpload] sampleContacts in
  let (response, fs') := deleteProject (id sampleUpload) sampleFS in
  newCalls sampleFS fs'
  = [CallRead DATA_FILE;
     CallExists (js "/srv/server/uploads/1.png");
     CallUnlink (js "/srv/server/uploads/1.png");
     CallWrite DATA_FILE (JSON_stringify_projects [])]
  /\ files fs' !! js "/srv/server/uploads/1.png" = None
  /\ files sampleFS !! js "/srv/server/uploads/1.png" = Some (js "PNG").
Proof. intros H. vm_compute. repeat split. Qed.

(** ** Records of a day *)

Lemma splitChar_aux_first (sep : N) (cur a rest : str) :
  Forall (fun c => c <> sep) a ->
  splitChar_aux sep cur (a ++ sep :: rest)
  = (rev cur ++ a) :: splitChar_aux sep [] rest.
Proof.
  intros Ha. revert cur. induction Ha as [|c a Hc Ha IH]; intros cur; simpl.
  - rewrite N.eqb_refl, app_nil_r. reflexivity.
  - apply N.eqb_neq in Hc. rewrite Hc, IH. simpl. now rewrite <- app_assoc.
Qed.

Lemma splitChar_first (sep : N) (a rest : str) :
  Forall (fun c => c <> sep) a ->
  hd [] (splitChar sep (a ++ sep :: rest)) = a.
Proof.
  intros Ha. unfold splitChar. now rewrite splitChar_aux_first.
Qed.

Lemma pad_digits (w : nat) (n : Z) :
  Forall (fun c => isDigit c = true) (JSDate.pad w n).
Proof.
  revert n; induction w as [|w IH]; intros n; simpl; [constructor|].
  apply Forall_app. split; [apply IH|]. constructor; [|constructor].
  pose proof (Z.mod_pos_bound n 10 ltac:(lia)) as Hb.
  unfold isDigit. apply andb_true_iff. split; apply N.leb_le; lia.
Qed.

Lemma digits_no_T (s : str) :
  Forall (fun c => isDigit c = true) s -> Forall (fun c => c <> 84) s.
Proof.
  apply List.Forall_impl. intros c Hc Heq. subst c. vm_compute in Hc.
  discriminate.
Qed.

Lemma dateStringAt_no_T (offset t : Z) :
  Forall (fun c => c <> 84) (JSDate.dateStringAt offset t).
Proof.
  unfold JSDate.dateStringAt.
  destruct (JSDate.civilFromDays _) as [[y m] d].
  assert (Hy : Forall (fun c => c <> 84) (JSDate.yearString y)).
  { unfold JSDate.yearString.
    destruct (_ && _); [apply digits_no_T, pad_digits|].
    destruct (_ <? _)%Z; change (js "-") with [45]; change (js "+") with [43];
      (constructor; [discriminate | apply digits_no_T, pad_digits]). }
  change (js "-") with [45]. cbn [app].
  apply Forall_app; split; [exact Hy|]. constructor; [discriminate|].
  apply Forall_app; split; [apply digits_no_T, pad_digits|].
  constructor; [discriminate|]. apply digits_no_T, pad_digits.
Qed.

Lemma isoString_date_part (t : Z) :
  hd [] (splitChar 84 (JSDate.isoString t)) = JSDate.dateStringAt 0 t.
Proof.
  unfold JSDate.isoString. change (js "T") with [84]. cbn [app].
  apply splitChar_first, dateStringAt_no_T.
Qed.

Lemma filterExc_total {A} (p : A -> Exc bool) (q : A -> bool) (l : list A) :
  Forall (fun x => p x = Ok (q x)) l -> filterExc p l = Ok (List.filter q l).
Proof.
  induction 1 as [|x l Hx _ IH]; simpl; [reflexivity|].
  now rewrite Hx, IH.
Qed.

Section DateFacts.

Context {H : Host}.

Lemma filterByDate_valid (date : str) (projects : list (Project Number)) :
  Forall validCreatedAt projects ->
  filterByDate date projects = Ok (projectsOfUtcDay date projects).
Proof.
  intros Hvalid. unfold filterByDate, projectsOfUtcDay.
  apply filterExc_total. eapply List.Forall_impl; [|exact Hvalid].
  intros project Hp. unfold validCreatedAt in Hp.
  unfold toISOString, createdOnDay.
  destruct (Date_parse (createdAt project)) as [t|]; [|congruence].
  now rewrite isoString_date_part.
Qed.

End DateFacts.

(** C5 (as amended).  When every stored creation time stamp is a valid
    date, the handler answers, in stored order, exactly the records whose
    creation time stamp falls on the given day when read in UTC, the day
    being written [YYYY-MM-DD]. *)
Theorem getProjectsByDate_utc_day {H : Host} (date : str) (fs : FS)
    (projects : list (Project Number)) :
  fst (readProjects fs) = Ok projects ->
  Forall validCreatedAt projects ->
  fst (getProjectsByDate date fs)
  = Ok (Reply (projectsOfUtcDay date projects)).
Proof.
  intros Hread Hvalid. unfold getProjectsByDate, tryCatch, bind.
  rewrite readProjects_run in Hread |- *. simpl in Hread.
  injection Hread as ->. unfold liftExc.
  now rewrite (filterByDate_valid date projects Hvalid).
Qed.

Lemma getProjectsByDate_utc_day_witness :
  let H := fixedHost [sampleProject] sampleContacts in
  fst (getProjectsByDate (js "2024-01-15") sampleFS)
  = Ok (Reply [sampleProject]).
Proof.
  intros H.
  apply (getProjectsByDate_utc_day (H := H) (js "2024-01-15") sampleFS
           [sampleProject]).
  - vm_compute. reflexivity.
  - constructor; [|constructor]. vm_compute. discriminate.
Defined.

(** A stored time stamp that is no date makes the handler answer 500. *)
Example getProjectsByDate_invalid_timestamp :
  let broken : Project Z :=
    {| id := id sampleProject;
       title := title sampleProject;
       tagline := tagline sampleProject;
       description := description sampleProject;
       image := None;
       city := city sampleProject;
       price := price sampleProject;
       contact := contact sampleProject;
       phone := None;
       email := None;
       telegram := None;
       otherContact := None;
       createdAt := js "yesterday" |} in
  let H := fixedHost [sampleProject; broken] sampleContacts in
  fst (getProjectsByDate (js "2024-01-15") sampleFS)
  = Ok (Failure 500 (js "Ошибка сервера")).
Proof. intros broken H. vm_compute. reflexivity. Qed.

(** C5, as worded, fails on a server ahead of UTC: a record created at
    22:30 UTC on 15 January belongs, three hours ahead, to 16 January, and
    is answered for 15 January. *)
Lemma getProjectsByDate_not_local_day :
  let H := fixedHost [sampleProject] sampleContacts in
  let offset := (3 * 3600000)%Z in
  fst (getProjectsByDate (js "2024-01-15") sampleFS)
  = Ok (Reply [sampleProject])
  /\ projectsOfLocalDay offset (js "2024-01-15") [sampleProject] = []
  /\ projectsOfLocalDay offset (js "2024-01-16") [sampleProject]
     = [sampleProject]
  /\ fst (getProjectsByDate (js "2024-01-15") sampleFS)
     <> Ok (Reply (projectsOfLocalDay offset (js "2024-01-15")
                    [sampleProject])).
Proof.
  intros H offset.
  split; [vm_compute; reflexivity|].
  split; [vm_compute; reflexivity|].
  split; [vm_compute; reflexivity|].
  vm_compute. discriminate.
Qed.

(** ** Export *)

Lemma undouble_doubleQuotes (s : str) : undouble (doubleQuotes s) = Some s.
Proof.
  induction s as [|c s IH]; [reflexivity|].
  unfold doubleQuotes in *. cbn [flat_map].
  destruct (c =? 34) eqn:Hc.
  - apply N.eqb_eq in Hc. subst c. cbn. now rewrite IH.
  - cbn [app undouble]. now rewrite Hc, IH.
Qed.

(** A field written between quotation marks with its own quotation marks
    doubled reads back as the field. *)
Lemma unquote_inQuotes_doubleQuotes (s : str) :
  unquote (inQuotes (doubleQuotes s)) = Some s.
Proof.
  unfold inQuotes, unquote. cbn [app]. rewrite N.eqb_refl.
  rewrite rev_app_distr. cbn [rev app]. rewrite N.eqb_refl, rev_involutive.
  apply undouble_doubleQuotes.
Qed.

Lemma csvHeader_one_line : Forall (fun c => c <> 10) csvHeader.
Proof.
  apply List.Forall_forall. intros c Hc Heq. subst c. revert Hc.
  vm_compute. intuition discriminate.
Qed.

Lemma Forall2_with_Forall {A B} (P : A -> Prop) (R : A -> B -> Prop)
    (l : list A) (l' : list B) :
  Forall P l -> Forall2 R l l' -> Forall2 (fun x y => P x /\ R x y) l l'.
Proof.
  intros HP HR. revert HP.
  induction HR as [|x y l l' Hxy _ IH]; intros HP; [constructor|].
  inversion HP; subst. constructor; [now split | now apply IH].
Qed.

Section ExportFacts.

Context {H : Host}.

Lemma csvRow_readable (p : Project Number) :
  readableContact p ->
  exists cells,
    length cells = 6%nat
    /\ csvRow p
       = Ok (join (js ",")
               (id p :: inQuotes (doubleQuotes (title p))
                :: inQuotes (doubleQuotes (tagline p)) :: cells)).
Proof.
  intros (contacts & Hparse & Hphone & Hemail & Htelegram).
  unfold csvRow. rewrite Hparse.
  destruct (contactCell (contacts_phone contacts)) as [a|]; [|congruence].
  destruct (contactCell (contacts_email contacts)) as [b|]; [|congruence].
  destruct (contactCell (contacts_telegram contacts)) as [c|]; [|congruence].
  exists [inQuotes (city p); Number_toString (price p); a; b; c; createdAt p].
  split; reflexivity.
Qed.

Lemma csvRows_rows (csv : str) (projects : list (Project Number)) :
  Forall readableContact projects ->
  exists rows,
    Forall2 (fun p row => csvRow p = Ok row) projects rows
    /\ csvRows csv projects
       = Ok (csv ++ flat_map (fun row => row ++ [10]) rows).
Proof.
  intros Hparse. revert csv.
  induction Hparse as [|p projects Hp _ IH]; intros csv.
  - exists []. split; [constructor|]. simpl. now rewrite app_nil_r.
  - destruct (csvRow p) as [row|] eqn:Hrow.
    + destruct (IH (csv ++ row ++ [10])) as (rows & Hrows & Heq).
      exists (row :: rows). split; [now constructor|].
      simpl. rewrite Hrow, Heq. now rewrite <- !app_assoc.
    + exfalso. destruct (csvRow_readable p Hp) as (cells & _ & Hcells).
      congruence.
Qed.

End ExportFacts.

(** C6 (as amended).  When the contact field of every stored record
    parses to a value other than [null], whose phone, e-mail and Telegram
    properties can be rendered as text, the export is text whose header
    row is
    [ID,Название,Описание,Город,Стоимость,Телефон,Email,Telegram,Дата],
    followed by one comma-separated row per record, in stored order; in
    each row the title and the tagline are wrapped in quotation marks with
    each quotation mark inside doubled, so that they read back as they
    were stored. *)
Theorem exportCsv_header_and_quoted_fields {H : Host} (fs : FS)
    (projects : list (Project Number)) :
  fst (readProjects fs) = Ok projects ->
  Forall readableContact projects ->
  exists csv rows,
    fst (exportCsv fs) = Ok (Reply csv)
    /\ csv = csvHeader ++ [10] ++ flat_map (fun row => row ++ [10]) rows
    /\ headerRow csv = csvHeader
    /\ Forall2
         (fun p row =>
            exists quotedTitle quotedTagline cells,
              row
              = join (js ",")
                  (id p :: quotedTitle :: quotedTagline :: cells)
              /\ length cells = 6%nat
              /\ quotedTitle = inQuotes (doubleQuotes (title p))
              /\ unquote quotedTitle = Some (title p)
              /\ quotedTagline = inQuotes (doubleQuotes (tagline p))
              /\ unquote quotedTagline = Some (tagline p))
         projects rows.
Proof.
  intros Hread Hparse.
  destruct (csvRows_rows (csvHeader ++ [10]) projects Hparse)
    as (rows & Hrows & Heq).
  exists (csvHeader ++ [10] ++ flat_map (fun row => row ++ [10]) rows), rows.
  split; [|split; [reflexivity|split]].
  - unfold exportCsv, tryCatch, bind.
    rewrite readProjects_run in Hread |- *. simpl in Hread.
    injection Hread as ->. unfold liftExc, exportCsvText.
    rewrite Heq. unfold ret. cbn [fst]. now rewrite <- app_assoc.
  - unfold headerRow. cbn [app].
    apply splitChar_first, csvHeader_one_line.
  - eapply Forall2_impl; [exact (Forall2_with_Forall _ _ _ _ Hparse Hrows)|].
    intros p row [Hp Hrow]. cbv beta in Hrow.
    destruct (csvRow_readable p Hp) as (cells & Hlen & Hcells).
    rewrite Hcells in Hrow. injection Hrow as <-.
    exists (inQuotes (doubleQuotes (title p))),
      (inQuotes (doubleQuotes (tagline p))), cells.
    split; [reflexivity|]. split; [exact Hlen|].
    split; [reflexivity|]. split; [apply unquote_inQuotes_doubleQuotes|].
    split; [reflexivity|]. apply unquote_inQuotes_doubleQuotes.
Qed.

Lemma exportCsv_witness :
  let H := fixedHost [sampleProject] sampleContacts in
  exists csv rows,
    fst (exportCsv sampleFS) = Ok (Reply csv)
    /\ csv = csvHeader ++ [10] ++ flat_map (fun row => row ++ [10]) rows
    /\ headerRow csv = csvHeader
    /\ Forall2
         (fun p row =>
            exists quotedTitle quotedTagline cells,
              row
              = join (js ",")
                  (id p :: quotedTitle :: quotedTagline :: cells)
              /\ length cells = 6%nat
              /\ quotedTitle = inQuotes (doubleQuotes (title p))
              /\ unquote quotedTitle = Some (title p)
              /\ quotedTagline = inQuotes (doubleQuotes (tagline p))
              /\ unquote quotedTagline = Some (tagline p))
         [sampleProject] rows.
Proof.
  intros H.
  apply (exportCsv_header_and_quoted_fields (H := H) sampleFS [sampleProject]).
  - vm_compute. reflexivity.
  - constructor; [|constructor]. exists sampleContacts.
    repeat split; vm_compute; discriminate.
Defined.

(** C6, as worded, fails already on the empty collection: the header row
    of the export is not the one the specification gives. *)
Lemma exportCsv_header_not_as_claimed :
  let H := fixedHost [] sampleContacts in
  fst (exportCsv sampleFS) = Ok (Reply (csvHeader ++ [10]))
  /\ headerRow (csvHeader ++ [10]) = csvHeader
  /\ headerRow (csvHeader ++ [10]) <> claimedCsvHeader.
Proof.
  intros H.
  split; [vm_compute; reflexivity|].
  split; [vm_compute; reflexivity|].
  vm_compute. discriminate.
Qed.

(** The contact fields of a row are wrapped in quotation marks as they
    are: a quotation mark inside one of them is kept single, and the field
    does not read back. *)
Lemma csvRow_contact_quotes_kept_single :
  let email := [34] ++ js "a b" ++ [34] ++ js "@example.org" in
  let H :=
    fixedHost [sampleProject]
      {| contacts_phone := None;
         contacts_email := Some (TextValue email);
         contacts_telegram := None |} in
  csvRow sampleProject
  = Ok (join (js ",")
          [ id sampleProject;
            inQuotes (doubleQuotes (title sampleProject));
            inQuotes (doubleQuotes (tagline sampleProject));
            inQuotes (city sampleProject); decimal (price sampleProject);
            inQuotes []; inQuotes email; inQuotes [];
            createdAt sampleProject ])
  /\ unquote (inQuotes email) = None.
Proof.
  intros email H. split; vm_compute; reflexivity.
Qed.

(** A contact text [null] parses, and the export answers 500 all the
    same: the row reads a property of [null]. *)
Example exportCsv_null_contact :
  let H := contactHost [sampleProject; sampleNullContact] sampleParse in
  JSON_parse_contacts (contact sampleNullContact) = Ok None
  /\ fst (exportCsv sampleFS) = Ok (Failure 500 (js "Ошибка сервера")).
Proof. intros H. split; vm_compute; reflexivity. Qed.

(** So does a contact whose phone cannot be rendered as text. *)
Example exportCsv_unrenderable_contact :
  let H := fixedHost [sampleProject] unrenderableContacts in
  fst (exportCsv sampleFS) = Ok (Failure 500 (js "Ошибка сервера")).
Proof. intros H. vm_compute. reflexivity. Qed.

(** ** Regular expressions *)

Module RegexFacts.

Lemma Lang_Cat (r1 r2 : regex) (s : str) :
  Lang (Cat r1 r2) s <-> exists s1 s2, s = s1 ++ s2 /\ Lang r1 s1 /\ Lang r2 s2.
Proof.
  split.
  - inversion 1; subst. eauto.
  - intros (s1 & s2 & -> & H1 & H2). now constructor.
Qed.

Lemma Lang_Alt (r1 r2 : regex) (s : str) :
  Lang (Alt r1 r2) s <-> Lang r1 s \/ Lang r2 s.
Proof.
  split.
  - inversion 1; subst; auto.
  - intros [H | H]; [now apply LangAltL | now apply LangAltR].
Qed.

Lemma Lang_Class (p : N -> bool) (s : str) :
  Lang (Class p) s <-> exists c, s = [c] /\ p c = true.
Proof.
  split.
  - inversion 1; subst. eauto.
  - intros (c & -> & Hc). now constructor.
Qed.

Lemma Lang_Void (s : str) : ~ Lang Void s.
Proof. inversion 1. Qed.

Lemma Lang_Eps (s : str) : Lang Eps s <-> s = [].
Proof. split; [now inversion 1 | intros ->; constructor]. Qed.

Lemma nullable_iff (r : regex) : nullable r = true <-> Lang r [].
Proof.
  induction r as [| |p|r1 IH1 r2 IH2|r1 IH1 r2 IH2|r IH]; simpl.
  - split; [discriminate | intros H; now apply Lang_Void in H].
  - split; [constructor | reflexivity].
  - split; [discriminate|]. rewrite Lang_Class. intros (c & Hc & _).
    discriminate.
  - rewrite andb_true_iff, IH1, IH2, Lang_Cat. split.
    + intros [H1 H2]. now exists [], [].
    + intros (s1 & s2 & Heq & H1 & H2). symmetry in Heq.
      apply app_eq_nil in Heq. destruct Heq; subst. now split.
  - rewrite orb_true_iff, IH1, IH2, Lang_Alt. reflexivity.
  - split; [constructor | reflexivity].
Qed.

Lemma star_cons_inv (r : regex) (c : N) (s : str) :
  Lang (Star r) (c :: s) ->
  exists s1 s2, s = s1 ++ s2 /\ Lang r (c :: s1) /\ Lang (Star r) s2.
Proof.
  intros H. remember (Star r) as r' eqn:Hr. remember (c :: s) as s' eqn:Hs.
  revert s Hs.
  induction H as [| | | | | |r0 s1 s2 H1 _ H2 IH2]; try discriminate.
  injection Hr as ->. intros s Hs.
  destruct s1 as [|c1 s1].
  - simpl in Hs. now apply IH2.
  - simpl in Hs. injection Hs as -> <-. now exists s1, s2.
Qed.

Lemma deriv_iff (c : N) (r : regex) (s : str) :
  Lang (deriv c r) s <-> Lang r (c :: s).
Proof.
  revert s.
  induction r as [| |p|r1 IH1 r2 IH2|r1 IH1 r2 IH2|r IH]; intros s; simpl.
  - split; intros H; now apply Lang_Void in H.
  - split; [intros H; now apply Lang_Void in H|].
    rewrite Lang_Eps. discriminate.
  - rewrite Lang_Class. destruct (p c) eqn:Hp.
    + rewrite Lang_Eps. split.
      * intros ->. now exists c.
      * intros (c' & Heq & _). now injection Heq as _ <-.
    + split; [intros H; now apply Lang_Void in H|].
      intros (c' & Heq & Hc'). injection Heq as <- _. congruence.
  - assert (Hcat : Lang (Cat (deriv c r1) r2) s
                   <-> exists s1 s2,
                         s = s1 ++ s2 /\ Lang r1 (c :: s1) /\ Lang r2 s2).
    { rewrite Lang_Cat. split; intros (s1 & s2 & Heq & H1 & H2);
        exists s1, s2; (split; [exact Heq|]); (split; [|exact H2]);
        now apply IH1. }
    assert (Hinv : Lang (Cat r1 r2) (c :: s)
                   <-> (exists s1 s2,
                          s = s1 ++ s2 /\ Lang r1 (c :: s1) /\ Lang r2 s2)
                       \/ (Lang r1 [] /\ Lang r2 (c :: s))).
    { rewrite Lang_Cat. split.
      - intros (s1 & s2 & Heq & H1 & H2). destruct s1 as [|c1 s1].
        + right. simpl in Heq. subst. now split.
        + left. simpl in Heq. injection Heq as <- ->. now exists s1, s2.
      - intros [(s1 & s2 & -> & H1 & H2) | [H1 H2]].
        + now exists (c :: s1), s2.
        + now exists [], (c :: s). }
    rewrite Hinv. destruct (nullable r1) eqn:Hn.
    + rewrite Lang_Alt, Hcat, IH2. apply nullable_iff in Hn. tauto.
    + rewrite Hcat. split; [now left|]. intros [H | [H _]]; [exact H|].
      apply nullable_iff in H. congruence.
  - rewrite !Lang_Alt, IH1, IH2. reflexivity.
  - rewrite Lang_Cat. split.
    + intros (s1 & s2 & -> & H1 & H2). apply IH in H1.
      exact (LangStarCons _ (c :: s1) s2 H1 H2).
    + intros H. apply star_cons_inv in H.
      destruct H as (s1 & s2 & -> & H1 & H2).
      exists s1, s2. split; [reflexivity|]. split; [now apply IH | assumption].
Qed.

(** The test of a pattern decides its language. *)
Lemma test_iff (r : regex) (s : str) : test r s = true <-> Lang r s.
Proof.
  revert r; induction s as [|c s IH]; intros r; simpl.
  - apply nullable_iff.
  - rewrite IH. apply deriv_iff.
Qed.

Lemma Lang_accepts (r : regex) (s : str) :
  Lang r s -> Forall (fun c => accepts r c = true) s.
Proof.
  induction 1; simpl; try constructor; auto.
  - apply Forall_app. split.
    + eapply List.Forall_impl; [|eassumption]. simpl. intros c ->. reflexivity.
    + eapply List.Forall_impl; [|eassumption]. simpl. intros c ->.
      apply orb_true_r.
  - eapply List.Forall_impl; [|eassumption]. simpl. intros c ->. reflexivity.
  - eapply List.Forall_impl; [|eassumption]. simpl. intros c ->.
    apply orb_true_r.
  - now apply Forall_app.
Qed.

Lemma Lang_Chr (c : N) (s : str) : Lang (Chr c) s <-> s = [c].
Proof.
  unfold Chr. split.
  - rewrite Lang_Class. intros (c' & -> & Hc). apply N.eqb_eq in Hc.
    now subst.
  - intros ->. constructor. apply N.eqb_refl.
Qed.

Lemma Lang_Times_Class (p : N -> bool) (n : nat) (s : str) :
  Lang (Times n (Class p)) s
  <-> length s = n /\ Forall (fun c => p c = true) s.
Proof.
  revert s; induction n as [|n IH]; intros s; simpl.
  - split.
    + rewrite Lang_Eps. intros ->. split; [reflexivity | constructor].
    + intros [Hl _]. destruct s; [constructor | discriminate].
  - rewrite Lang_Cat. split.
    + intros (s1 & s2 & -> & H1 & H2).
      apply Lang_Class in H1. destruct H1 as (c & -> & Hc). apply IH in H2.
      destruct H2 as [Hl Hf]. simpl. split; [now rewrite Hl | now constructor].
    + intros [Hl Hf]. destruct s as [|c s]; [discriminate|].
      inversion Hf; subst. exists [c], s. split; [reflexivity|].
      split; [now constructor|]. apply IH. simpl in Hl. split; [lia | assumption].
Qed.

Lemma Lang_UpTo_Class (p : N -> bool) (n : nat) (s : str) :
  Lang (UpTo n (Class p)) s
  <-> (length s <= n)%nat /\ Forall (fun c => p c = true) s.
Proof.
  revert s; induction n as [|n IH]; intros s; simpl.
  - split.
    + rewrite Lang_Eps. intros ->. split; [simpl; lia | constructor].
    + intros [Hl _]. destruct s; [constructor | simpl in Hl; lia].
  - rewrite Lang_Alt, Lang_Cat. split.
    + intros [H | (s1 & s2 & -> & H1 & H2)].
      * apply Lang_Eps in H. subst. split; [simpl; lia | constructor].
      * apply Lang_Class in H1. destruct H1 as (c & -> & Hc). apply IH in H2.
        destruct H2 as [Hl Hf]. simpl. split; [lia | now constructor].
    + intros [Hl Hf]. destruct s as [|c s]; [left; constructor|].
      right. inversion Hf; subst. exists [c], s. split; [reflexivity|].
      split; [now constructor|]. apply IH. simpl in Hl. split; [lia | assumption].
Qed.

Lemma Lang_Star_Class (p : N -> bool) (s : str) :
  Lang (Star (Class p)) s <-> Forall (fun c => p c = true) s.
Proof.
  split.
  - intros H. apply Lang_accepts in H. exact H.
  - induction 1 as [|c s Hc _ IH]; [constructor|].
    exact (LangStarCons _ [c] s (LangClass p c Hc) IH).
Qed.

Lemma Lang_Range_Class (p : N -> bool) (m n : nat) (s : str) :
  (m <= n)%nat ->
  Lang (Range m n (Class p)) s
  <-> (m <= length s <= n)%nat /\ Forall (fun c => p c = true) s.
Proof.
  intros Hmn. unfold Range. rewrite Lang_Cat. split.
  - intros (s1 & s2 & -> & H1 & H2).
    apply Lang_Times_Class in H1. apply Lang_UpTo_Class in H2.
    destruct H1 as [Hl1 Hf1], H2 as [Hl2 Hf2]. rewrite length_app.
    split; [lia | now apply Forall_app].
  - intros [Hl Hf]. exists (firstn m s), (skipn m s).
    split; [now rewrite firstn_skipn|]. split.
    + apply Lang_Times_Class. split.
      * rewrite length_firstn. lia.
      * now apply Forall_take.
    + apply Lang_UpTo_Class. split.
      * rewrite length_skipn. lia.
      * now apply Forall_drop.
Qed.

Lemma Lang_Plus_Class (p : N -> bool) (s : str) :
  Lang (Plus (Class p)) s <-> s <> [] /\ Forall (fun c => p c = true) s.
Proof.
  unfold Plus. rewrite Lang_Cat. split.
  - intros (s1 & s2 & -> & H1 & H2).
    apply Lang_Class in H1. destruct H1 as (c & -> & Hc).
    apply Lang_Star_Class in H2. split; [discriminate | now constructor].
  - intros [Hne Hf]. destruct s as [|c s]; [congruence|].
    inversion Hf; subst. exists [c], s. split; [reflexivity|].
    split; [now constructor | now apply Lang_Star_Class].
Qed.

Lemma Lang_AtLeast_Class (p : N -> bool) (m : nat) (s : str) :
  Lang (AtLeast m (Class p)) s
  <-> (m <= length s)%nat /\ Forall (fun c => p c = true) s.
Proof.
  unfold AtLeast. rewrite Lang_Cat. split.
  - intros (s1 & s2 & -> & H1 & H2).
    apply Lang_Times_Class in H1. apply Lang_Star_Class in H2.
    destruct H1 as [Hl1 Hf1]. rewrite length_app.
    split; [lia | now apply Forall_app].
  - intros [Hl Hf]. exists (firstn m s), (skipn m s).
    split; [now rewrite firstn_skipn|]. split.
    + apply Lang_Times_Class. split.
      * rewrite length_firstn. lia.
      * now apply Forall_take.
    + apply Lang_Star_Class. now apply Forall_drop.
Qed.

End RegexFacts.

Import RegexFacts.

(** ** Telegram name *)

(** X1.  [validateTelegram] accepts the empty string and, besides it,
    exactly the strings made of an at sign followed by five to thirty-two
    characters, each a Latin letter, a digit or an underscore. *)
Theorem validateTelegram_iff (telegram : str) :
  validateTelegram telegram = true
  <-> telegram = []
      \/ exists name,
           telegram = 64 :: name
           /\ (5 <= length name <= 32)%nat
           /\ Forall (fun c => isWordChar c = true) name.
Proof.
  unfold validateTelegram. destruct telegram as [|c telegram].
  - simpl. split; [now left | reflexivity].
  - cbn [truthy negb]. rewrite test_iff. unfold telegramRe.
    rewrite Lang_Cat. split.
    + intros (s1 & s2 & Heq & H1 & H2). right.
      apply Lang_Chr in H1. subst s1. simpl in Heq. injection Heq as -> ->.
      apply Lang_Range_Class in H2; [|lia]. now exists s2.
    + intros [Hnil | (name & Heq & Hl & Hf)]; [discriminate|].
      injection Heq as -> ->. exists [64], name.
      split; [reflexivity|]. split; [now apply Lang_Chr|].
      apply Lang_Range_Class; [lia | now split].
Qed.

Lemma validateTelegram_witness :
  validateTelegram (js "@owner_01") = true
  /\ validateTelegram (js "@own") = false.
Proof.
  split.
  - apply validateTelegram_iff. right. exists (js "owner_01").
    split; [reflexivity|]. split; [vm_compute; lia|].
    repeat constructor.
  - apply not_true_is_false. intros H. apply validateTelegram_iff in H.
    destruct H as [H | (name & Heq & Hl & _)]; [discriminate|].
    injection Heq as <-. vm_compute in Hl. lia.
Defined.

(** ** E-mail address *)

Lemma Lang_Star_parts (r : regex) (s : str) :
  Lang (Star r) s
  <-> exists parts, Forall (Lang r) parts /\ s = concat parts.
Proof.
  split.
  - intros H. remember (Star r) as r' eqn:Hr.
    induction H as [| | | | | |r0 s1 s2 H1 _ H2 IH2]; try discriminate.
    + exists []. split; [constructor | reflexivity].
    + injection Hr as ->. destruct (IH2 eq_refl) as (parts & Hf & ->).
      exists (s1 :: parts). split; [now constructor | reflexivity].
  - intros (parts & Hf & ->). induction Hf as [|p parts Hp _ IH]; simpl.
    + constructor.
    + now constructor.
Qed.

Lemma Lang_Plus_parts (r : regex) (s : str) :
  Lang (Plus r) s
  <-> exists parts,
        parts <> [] /\ Forall (Lang r) parts /\ s = concat parts.
Proof.
  unfold Plus. rewrite Lang_Cat. split.
  - intros (s1 & s2 & -> & H1 & H2). apply Lang_Star_parts in H2.
    destruct H2 as (parts & Hf & ->). exists (s1 :: parts).
    split; [discriminate|]. split; [now constructor | reflexivity].
  - intros (parts & Hne & Hf & ->). destruct parts as [|p parts]; [congruence|].
    inversion Hf; subst. exists p, (concat parts).
    split; [reflexivity|]. split; [assumption|].
    apply Lang_Star_parts. now exists parts.
Qed.

Lemma join_cons (sep a : str) (l : list str) :
  join sep (a :: l) = a ++ concat (map (fun x => sep ++ x) l).
Proof.
  revert a; induction l as [|b l IH]; intros a.
  - simpl. now rewrite app_nil_r.
  - change (join sep (a :: b :: l)) with (a ++ sep ++ join sep (b :: l)).
    rewrite IH. simpl. now rewrite <- app_assoc.
Qed.

Lemma Lang_atomRe (a : str) :
  Lang atomRe a <-> a <> [] /\ Forall (fun c => isAtomChar c = true) a.
Proof. apply Lang_Plus_Class. Qed.

Lemma Lang_dottedAtoms (s : str) :
  Lang (Cat atomRe (Star (Cat (Chr 46) atomRe))) s <-> DottedAtoms s.
Proof.
  rewrite Lang_Cat. unfold DottedAtoms. split.
  - intros (a & rest & -> & Ha & Hrest). apply Lang_Star_parts in Hrest.
    destruct Hrest as (parts & Hparts & ->).
    assert (Hatoms : exists atoms,
               Forall (fun a => a <> []
                                /\ Forall (fun c => isAtomChar c = true) a)
                 atoms
               /\ parts = map (fun x => [46] ++ x) atoms).
    { clear Ha. induction Hparts as [|p parts Hp _ IH].
      - exists []. split; [constructor | reflexivity].
      - destruct IH as (atoms & Hatoms & ->).
        apply Lang_Cat in Hp. destruct Hp as (d & x & -> & Hd & Hx).
        apply Lang_Chr in Hd. subst d. apply Lang_atomRe in Hx.
        exists (x :: atoms). split; [now constructor | reflexivity]. }
    destruct Hatoms as (atoms & Hatoms & ->).
    exists (a :: atoms). split; [discriminate|]. split.
    + constructor; [now apply Lang_atomRe | assumption].
    + now rewrite join_cons.
  - intros (atoms & Hne & Hatoms & ->).
    destruct atoms as [|a atoms]; [congruence|].
    inversion Hatoms as [|? ? Ha Hrest]; subst.
    exists a, (concat (map (fun x => [46] ++ x) atoms)).
    split; [apply join_cons|]. split; [now apply Lang_atomRe|].
    apply Lang_Star_parts. exists (map (fun x => [46] ++ x) atoms).
    split; [|reflexivity]. apply Forall_map.
    eapply List.Forall_impl; [|exact Hrest]. intros x Hx.
    apply Lang_Cat. exists [46], x. split; [reflexivity|].
    split; [now apply Lang_Chr | now apply Lang_atomRe].
Qed.

Lemma Lang_quotedText (s : str) :
  Lang (Cat (Chr 34) (Cat (Plus (Class isDotChar)) (Chr 34))) s
  <-> QuotedText s.
Proof.
  rewrite Lang_Cat. unfold QuotedText. split.
  - intros (a & rest & -> & Ha & Hrest). apply Lang_Chr in Ha. subst a.
    apply Lang_Cat in Hrest. destruct Hrest as (q & b & -> & Hq & Hb).
    apply Lang_Chr in Hb. subst b. apply Lang_Plus_Class in Hq.
    destruct Hq as [Hne Hq]. now exists q.
  - intros (q & Hne & Hq & ->). exists [34], (q ++ [34]).
    split; [reflexivity|]. split; [now apply Lang_Chr|].
    apply Lang_Cat. exists q, [34]. split; [reflexivity|].
    split; [now apply Lang_Plus_Class | now apply Lang_Chr].
Qed.

Lemma Lang_octetRe (o : str) : Lang octetRe o <-> Octet o.
Proof. unfold octetRe, Octet. apply Lang_Range_Class. lia. Qed.

Lemma Lang_addressLiteralRe (d : str) :
  Lang addressLiteralRe d <-> AddressLiteral d.
Proof.
  unfold addressLiteralRe, AddressLiteral. split.
  - intros H.
    apply Lang_Cat in H. destruct H as (b1 & r1 & -> & Hb1 & H).
    apply Lang_Chr in Hb1. subst b1.
    apply Lang_Cat in H. destruct H as (o1 & r2 & -> & Ho1 & H).
    apply Lang_Cat in H. destruct H as (d1 & r3 & -> & Hd1 & H).
    apply Lang_Chr in Hd1. subst d1.
    apply Lang_Cat in H. destruct H as (o2 & r4 & -> & Ho2 & H).
    apply Lang_Cat in H. destruct H as (d2 & r5 & -> & Hd2 & H).
    apply Lang_Chr in Hd2. subst d2.
    apply Lang_Cat in H. destruct H as (o3 & r6 & -> & Ho3 & H).
    apply Lang_Cat in H. destruct H as (d3 & r7 & -> & Hd3 & H).
    apply Lang_Chr in Hd3. subst d3.
    apply Lang_Cat in H. destruct H as (o4 & b2 & -> & Ho4 & Hb2).
    apply Lang_Chr in Hb2. subst b2.
    apply Lang_octetRe in Ho1, Ho2, Ho3, Ho4.
    exists o1, o2, o3, o4. do 4 (split; [assumption|]). reflexivity.
  - intros (o1 & o2 & o3 & o4 & Ho1 & Ho2 & Ho3 & Ho4 & ->).
    apply Lang_octetRe in Ho1, Ho2, Ho3, Ho4.
    repeat (apply LangCat;
            [solve [apply Lang_Chr; reflexivity | assumption]|]).
    apply Lang_Chr. reflexivity.
Qed.

Lemma Lang_hostNameRe (d : str) : Lang hostNameRe d <-> HostName d.
Proof.
  unfold hostNameRe, HostName. rewrite Lang_Cat. split.
  - intros (a & tld & -> & Ha & Htld). apply Lang_AtLeast_Class in Htld.
    destruct Htld as [Hl Htld]. apply Lang_Plus_parts in Ha.
    destruct Ha as (parts & Hne & Hparts & ->).
    assert (Hlabels : exists labels,
               Forall (fun l => l <> []
                                /\ Forall (fun c => isLabelChar c = true) l)
                 labels
               /\ parts = map (fun l => l ++ [46]) labels).
    { clear Hne. induction Hparts as [|p parts Hp _ IH].
      - exists []. split; [constructor | reflexivity].
      - destruct IH as (labels & Hlabels & ->).
        apply Lang_Cat in Hp. destruct Hp as (l & dot & -> & Hlab & Hdot).
        apply Lang_Chr in Hdot. subst dot. apply Lang_Plus_Class in Hlab.
        exists (l :: labels). split; [now constructor | reflexivity]. }
    destruct Hlabels as (labels & Hlabels & ->).
    exists labels, tld. split; [now destruct labels|].
    repeat (split; [assumption|]). now rewrite flat_map_concat_map.
  - intros (labels & tld & Hne & Hlabels & Hl & Htld & ->).
    exists (flat_map (fun l => l ++ [46]) labels), tld.
    split; [reflexivity|]. split; [|now apply Lang_AtLeast_Class].
    apply Lang_Plus_parts. exists (map (fun l => l ++ [46]) labels).
    split; [now destruct labels|]. split; [|apply flat_map_concat_map].
    apply Forall_map. eapply List.Forall_impl; [|exact Hlabels].
    intros l Hlab. apply Lang_Cat. exists l, [46]. split; [reflexivity|].
    split; [now apply Lang_Plus_Class | now apply Lang_Chr].
Qed.

Lemma Lang_emailRe (s : str) :
  Lang emailRe s
  <-> exists localPart domain,
        s = localPart ++ [64] ++ domain
        /\ (DottedAtoms localPart \/ QuotedText localPart)
        /\ (AddressLiteral domain \/ HostName domain).
Proof.
  unfold emailRe, localPartRe, domainRe.
  rewrite Lang_Cat. split.
  - intros (a & rest & Heq & Ha & Hrest).
    apply Lang_Cat in Hrest. destruct Hrest as (at' & d & -> & Hat & Hd).
    apply Lang_Chr in Hat. subst at'. exists a, d. split; [exact Heq|].
    apply Lang_Alt in Ha. apply Lang_Alt in Hd.
    rewrite Lang_dottedAtoms, Lang_quotedText in Ha.
    rewrite Lang_addressLiteralRe, Lang_hostNameRe in Hd. now split.
  - intros (a & d & Heq & Ha & Hd). exists a, ([64] ++ d).
    split; [exact Heq|]. split.
    + apply Lang_Alt. now rewrite Lang_dottedAtoms, Lang_quotedText.
    + apply Lang_Cat. exists [64], d. split; [reflexivity|].
      split; [now apply Lang_Chr|].
      apply Lang_Alt. now rewrite Lang_addressLiteralRe, Lang_hostNameRe.
Qed.

Lemma accepts_domainRe (c : N) :
  accepts domainRe c = true -> isDomainChar c = true.
Proof.
  unfold isDomainChar, isLabelChar, isLetter, isLower, isUpper, isDigit.
  cbn -[N.eqb N.leb]. unfold isLabelChar, isLetter, isLower, isUpper, isDigit.
  rewrite ?orb_false_r.
  rewrite ?orb_true_iff, ?andb_true_iff, ?N.eqb_eq, ?N.leb_le. lia.
Qed.

Lemma domain_has_full_stop (d : str) :
  AddressLiteral d \/ HostName d -> In 46 d.
Proof.
  intros [(o1 & o2 & o3 & o4 & _ & _ & _ & _ & ->)
         | (labels & tld & Hne & _ & _ & _ & ->)].
  - apply in_cons, in_or_app. right. now left.
  - destruct labels as [|l labels]; [congruence|]. simpl.
    rewrite <- !app_assoc. apply in_or_app. right. now left.
Qed.

(** X2.  [validateEmail] accepts an address exactly when its lower-cased
    form is a local part, an at sign and a domain, where the local part is
    either non-empty atoms joined by full stops or a quoted text, and the
    domain is either four octets in square brackets or a host name ending
    in at least two letters. *)
Theorem validateEmail_iff {CM : CaseMapping} (email : str) :
  validateEmail email = true
  <-> exists localPart domain,
        toLowerCase email = localPart ++ [64] ++ domain
        /\ (DottedAtoms localPart \/ QuotedText localPart)
        /\ (AddressLiteral domain \/ HostName domain).
Proof. unfold validateEmail. rewrite test_iff. apply Lang_emailRe. Qed.

Lemma validateEmail_witness :
  validateEmail (CM := basicCaseMapping) (js "First.Last@Sub.Example.org")
  = true.
Proof.
  apply (validateEmail_iff (CM := basicCaseMapping)).
  exists (js "first.last"), (js "sub.example.org"). split; [reflexivity|].
  split.
  - left. exists [js "first"; js "last"]. split; [discriminate|].
    split; [|reflexivity].
    repeat constructor; try discriminate.
  - right. exists [js "sub"; js "example"], (js "org").
    split; [discriminate|]. split.
    + repeat constructor; try discriminate.
    + split; [vm_compute; lia|]. split; [|reflexivity].
      repeat constructor.
Defined.

(** X3.  An address that [validateEmail] accepts has, once lower-cased, a
    non-empty local part, an at sign, and after it a domain that contains
    a full stop and only letters, digits, hyphens, full stops and square
    brackets; so an address whose lower-cased form has no at sign is
    refused. *)
Theorem validateEmail_accepted_shape {CM : CaseMapping} (email : str) :
  (validateEmail email = true ->
   exists localPart domain,
     toLowerCase email = localPart ++ [64] ++ domain
     /\ localPart <> []
     /\ In 46 domain
     /\ Forall (fun c => isDomainChar c = true) domain)
  /\ (~ In 64 (toLowerCase email) -> validateEmail email = false).
Proof.
  assert (Hshape : validateEmail email = true ->
    exists localPart domain,
      toLowerCase email = localPart ++ [64] ++ domain
      /\ localPart <> []
      /\ In 46 domain
      /\ Forall (fun c => isDomainChar c = true) domain).
  { unfold validateEmail. rewrite test_iff. intros H.
    pose proof H as Hparts. apply Lang_emailRe in Hparts.
    destruct Hparts as (a & d & Heq & Ha & Hd). exists a, d.
    split; [exact Heq|]. split; [|split].
    - intros ->. destruct Ha as [(atoms & Hne & Hatoms & Hj) | (q & _ & _ & Hq)].
      + destruct atoms as [|x atoms]; [congruence|].
        inversion Hatoms as [|? ? [Hx _] _]; subst.
        rewrite join_cons in Hj. symmetry in Hj.
        apply app_eq_nil in Hj. tauto.
      + discriminate.
    - now apply domain_has_full_stop.
    - assert (Hdl : Lang domainRe d).
      { unfold domainRe. apply Lang_Alt.
        now rewrite Lang_addressLiteralRe, Lang_hostNameRe. }
      apply Lang_accepts in Hdl. eapply List.Forall_impl; [|exact Hdl].
      apply accepts_domainRe. }
  split; [exact Hshape|]. intros Hno. apply not_true_is_false. intros Hv.
  destruct (Hshape Hv) as (a & d & Heq & _). apply Hno. rewrite Heq.
  apply in_or_app. right. now left.
Qed.

Lemma validateEmail_accepted_shape_witness :
  validateEmail (CM := basicCaseMapping) (js "owner.example.org") = false.
Proof.
  apply (proj2 (validateEmail_accepted_shape (CM := basicCaseMapping)
                  (js "owner.example.org"))).
  vm_compute. intuition discriminate.
Defined.

(** ** Phone numbers, formatted then validated *)

Lemma validatePhone_formatPhone_iff (raw : str) :
  raw <> [] ->
  validatePhone (formatPhone raw) = true
  <-> length (stripNonDigits raw) = 11%nat.
Proof.
  intros Hne. split.
  - intros Hvalid.
    destruct (Nat.eq_dec (length (stripNonDigits raw)) 11%nat) as [|Hlen];
      [assumption|].
    rewrite (formatPhone_other raw Hlen) in Hvalid.
    unfold validatePhone in Hvalid.
    destruct raw as [|c raw]; [congruence|]. cbn [truthy negb] in Hvalid.
    apply andb_true_iff in Hvalid. destruct Hvalid as [Hl _].
    now apply Nat.eqb_eq in Hl.
  - intros Hlen.
    destruct (length_eleven _ Hlen)
      as (d1 & d2 & d3 & d4 & d5 & d6 & d7 & d8 & d9 & d10 & d11 & Hd).
    pose proof (stripNonDigits_digits raw) as Hall. rewrite Hd in Hall.
    inversion_clear Hall as [|? ? _ Hrest].
    pose proof (stripNonDigits_phoneLayout _ _ _ _ _ _ _ _ _ _ Hrest) as Hs.
    rewrite (formatPhone_eleven raw _ _ _ _ _ _ _ _ _ _ _ Hd).
    unfold validatePhone. rewrite Hs. reflexivity.
Qed.

(** X4.  The step of the creation flow that formats a phone number and
    then validates it accepts a non-empty number exactly when it has
    eleven digits, whatever the other characters and the first digit; a
    number that it refuses has been left as it was typed. *)
Theorem format_then_validate_iff_eleven_digits (raw : str) :
  raw <> [] ->
  (validatePhone (formatPhone raw) = true
   <-> length (stripNonDigits raw) = 11%nat)
  /\ (validatePhone (formatPhone raw) = false -> formatPhone raw = raw).
Proof.
  intros Hne. pose proof (validatePhone_formatPhone_iff raw Hne) as Hiff.
  split; [exact Hiff|]. intros Hrefused. apply formatPhone_other.
  intros Hlen. apply Hiff in Hlen. congruence.
Qed.

Lemma format_then_validate_witness :
  js "8 (912) 345-67" <> []
  /\ validatePhone (formatPhone (js "8 (912) 345-67")) = false.
Proof.
  split; [discriminate|]. apply not_true_is_false. intros H.
  apply (proj1 (format_then_validate_iff_eleven_digits (js "8 (912) 345-67")
                  ltac:(discriminate))) in H.
  vm_compute in H. discriminate.
Defined.

(** ** Search results *)

Lemma directory_NoDup : List.NoDup RUSSIAN_CITIES.
Proof.
  apply NoDup_ListNoDup.
  apply (bool_decide_unpack (NoDup RUSSIAN_CITIES)). vm_compute. exact I.
Qed.

Lemma NoDup_firstn {A} (n : nat) (l : list A) :
  List.NoDup l -> List.NoDup (firstn n l).
Proof.
  intros H. rewrite <- (firstn_skipn n l) in H.
  now apply NoDup_app_remove_r in H.
Qed.

Lemma Forall_firstn {A} (P : A -> Prop) (n : nat) (l : list A) :
  Forall P l -> Forall P (firstn n l).
Proof. apply Forall_take. Qed.

Lemma firstn_short {A} (n : nat) (l : list A) :
  (length (firstn n l) < n)%nat -> firstn n l = l.
Proof.
  intros H. rewrite length_firstn in H. apply firstn_all2. lia.
Qed.

Section SearchResults.

Context {CM : CaseMapping}.

Lemma getCities_run (query : str) :
  truthy (trim query) = true ->
  let term := trim (toLowerCase query) in
  let prefixMatches := List.filter (prefixMatch term) RUSSIAN_CITIES in
  let wordMatches :=
    List.filter
      (fun city => negb (prefixMatch term city) && wordMatch term city)
      RUSSIAN_CITIES in
  getCities (Some query)
  = firstn 15
      (prefixMatches
       ++ (if (length prefixMatches <? 10)%nat then wordMatches else [])).
Proof.
  intros Htrim term prefixMatches wordMatches. unfold getCities.
  assert (Hq : truthy query = true).
  { destruct query; [rewrite trim_nil in Htrim; discriminate | reflexivity]. }
  rewrite Hq, Htrim. cbn [andb]. fold term.
  change (List.filter (fun city => startsWith (toLowerCase city) term)
            RUSSIAN_CITIES) with prefixMatches.
  f_equal. destruct (length prefixMatches <? 10)%nat; [|now rewrite app_nil_r].
  f_equal. apply filter_ext_in. intros city Hin.
  unfold prefixMatches. rewrite (arrayIncludes_filter _ _ _ Hin).
  unfold wordMatch. now destruct (prefixMatch term city).
Qed.

Lemma getCities_blank (query : str) :
  truthy (trim query) = false -> getCities (Some query) = [].
Proof.
  intros H. unfold getCities. now rewrite H, andb_false_r.
Qed.

End SearchResults.

(** X5.  The answer of the search is made of prefix matches followed by
    word matches that are not prefix matches, for the query lower-cased and
    trimmed; it holds at most fifteen names, all of the directory, and no
    name twice. *)
Theorem getCities_sound {CM : CaseMapping} (query : str) :
  let term := trim (toLowerCase query) in
  exists prefixes words,
    getCities (Some query) = prefixes ++ words
    /\ Forall (fun city => prefixMatch term city = true) prefixes
    /\ Forall (fun city =>
                 prefixMatch term city = false /\ wordMatch term city = true)
         words
    /\ Forall (fun city => In city RUSSIAN_CITIES) (prefixes ++ words)
    /\ List.NoDup (prefixes ++ words)
    /\ (length (prefixes ++ words) <= 15)%nat.
Proof.
  intros term. destruct (truthy (trim query)) eqn:Htrim.
  - rewrite (getCities_run query Htrim). fold term.
    set (P := List.filter (prefixMatch term) RUSSIAN_CITIES).
    set (W := List.filter
                (fun city =>
                   negb (prefixMatch term city) && wordMatch term city)
                RUSSIAN_CITIES).
    set (W' := if (length P <? 10)%nat then W else []).
    assert (HP : Forall (fun city => prefixMatch term city = true) P).
    { apply List.Forall_forall. intros c Hc. apply filter_In in Hc. tauto. }
    assert (HW : Forall (fun city =>
                  prefixMatch term city = false
                  /\ wordMatch term city = true) W').
    { apply List.Forall_forall. intros c Hc. unfold W' in Hc.
      destruct (length P <? 10)%nat; [|destruct Hc].
      apply filter_In in Hc. destruct Hc as [_ Hc].
      apply andb_true_iff in Hc. destruct Hc as [Hn Hw].
      apply negb_true_iff in Hn. now split. }
    assert (Hin : Forall (fun city => In city RUSSIAN_CITIES) (P ++ W')).
    { apply List.Forall_forall. intros c Hc. apply in_app_or in Hc.
      destruct Hc as [Hc | Hc].
      - apply filter_In in Hc. tauto.
      - unfold W' in Hc. destruct (length P <? 10)%nat; [|destruct Hc].
        apply filter_In in Hc. tauto. }
    assert (Hnd : List.NoDup (P ++ W')).
    { apply List.NoDup_app.
      - apply List.NoDup_filter, directory_NoDup.
      - unfold W'. destruct (length P <? 10)%nat; [|constructor].
        apply List.NoDup_filter, directory_NoDup.
      - intros c HcP HcW. rewrite List.Forall_forall in HP, HW.
        apply HP in HcP. apply HW in HcW. destruct HcW. congruence. }
    exists (firstn 15 P), (firstn (15 - length P) W').
    rewrite <- firstn_app. split; [reflexivity|].
    split; [now apply Forall_firstn|]. split; [now apply Forall_firstn|].
    split; [now apply Forall_firstn|]. split; [now apply NoDup_firstn|].
    apply firstn_le_length.
  - rewrite (getCities_blank query Htrim). exists [], [].
    repeat split; try constructor. simpl. lia.
Qed.

(** X6.  When the search answers fewer than fifteen names to a query that
    is not blank, no prefix match is left out; and when there are fewer
    than ten prefix matches, no word match is left out either. *)
Theorem getCities_complete_when_short {CM : CaseMapping}
    (query city : str) :
  truthy (trim query) = true ->
  (length (getCities (Some query)) < 15)%nat ->
  In city RUSSIAN_CITIES ->
  let term := trim (toLowerCase query) in
  (prefixMatch term city = true -> In city (getCities (Some query)))
  /\ ((length (List.filter (prefixMatch term) RUSSIAN_CITIES) < 10)%nat ->
      wordMatch term city = true -> In city (getCities (Some query))).
Proof.
  intros Htrim Hshort Hin term.
  rewrite (getCities_run query Htrim) in Hshort |- *. fold term in Hshort |- *.
  rewrite (firstn_short _ _ Hshort). split.
  - intros Hp. apply in_or_app. left. apply filter_In. now split.
  - intros Hfew Hw. apply Nat.ltb_lt in Hfew. rewrite Hfew.
    destruct (prefixMatch term city) eqn:Hp.
    + apply in_or_app. left. apply filter_In. now split.
    + apply in_or_app. right. apply filter_In. split; [assumption|].
      now rewrite Hp, Hw.
Qed.

Lemma getCities_complete_witness :
  In (js "Нижний Новгород")
    (getCities (CM := basicCaseMapping) (Some (js "Новг"))).
Proof.
  apply (getCities_complete_when_short (CM := basicCaseMapping)
           (js "Новг") (js "Нижний Новгород")).
  - reflexivity.
  - vm_compute. lia.
  - vm_compute. tauto.
  - vm_compute. lia.
  - vm_compute. reflexivity.
Defined.

(** ** Suggestions *)

Lemma StartsWithCI_ContainsCI {CM : CaseMapping} (name entry : str) :
  StartsWithCI name entry -> ContainsCI name entry.
Proof. intros [rest Hr]. now exists [], rest. Qed.

(** X7.  A suggestion is a directory entry whose lower-cased name contains
    the lower-cased input, and is made only for a name that is not valid;
    there is none exactly when the name is valid or no entry contains
    it. *)
Theorem suggestion_contains_input {CM : CaseMapping} (name : str) :
  (forall entry,
     suggestion name = Some entry ->
     validateCity name = false
     /\ In entry RUSSIAN_CITIES /\ ContainsCI name entry)
  /\ (suggestion name = None
      <-> validateCity name = true
          \/ Forall (fun entry => ~ ContainsCI name entry) RUSSIAN_CITIES).
Proof.
  unfold suggestion.
  set (pre := fun russianCity : str =>
                startsWith (toLowerCase russianCity) (toLowerCase name)).
  set (sub := fun russianCity : str =>
                includes (toLowerCase russianCity) (toLowerCase name)).
  destruct (validateCity name) eqn:Hvalid; cbn [negb].
  - split; [discriminate|]. split; [now left | reflexivity].
  - assert (Hsub : forall e, List.find sub RUSSIAN_CITIES = Some e ->
                             In e RUSSIAN_CITIES /\ ContainsCI name e).
    { intros e He. apply find_some in He. destruct He as [Hin He].
      split; [assumption | now apply includes_iff]. }
    assert (Hnone : List.find sub RUSSIAN_CITIES = None ->
                    Forall (fun entry => ~ ContainsCI name entry)
                      RUSSIAN_CITIES).
    { intros Hn. apply List.Forall_forall. intros e Hin Hc.
      apply includes_iff in Hc.
      pose proof (find_none _ _ Hn e Hin) as Hf. unfold sub in Hf.
      congruence. }
    destruct (List.find pre RUSSIAN_CITIES) as [entry|] eqn:Hpre.
    + cbn [truthyOpt]. rewrite (find_directory_truthy _ _ Hpre). cbn [negb].
      apply find_some in Hpre. destruct Hpre as [Hin Hp].
      assert (Hc : ContainsCI name entry)
        by (now apply StartsWithCI_ContainsCI, startsWith_iff).
      split.
      * intros e [= <-]. auto.
      * split; [discriminate|]. intros [Hv | Hall]; [discriminate|].
        rewrite List.Forall_forall in Hall. now apply Hall in Hc.
    + cbn [truthyOpt negb].
      destruct (List.find sub RUSSIAN_CITIES) as [entry|] eqn:Hfind.
      * split.
        -- intros e [= <-]. destruct (Hsub entry eq_refl). auto.
        -- split; [discriminate|]. intros [Hv | Hall]; [discriminate|].
           destruct (Hsub entry eq_refl) as [Hin Hc].
           rewrite List.Forall_forall in Hall. now apply Hall in Hc.
      * split; [discriminate|]. split; [|reflexivity]. intros _. right. auto.
Qed.

Lemma suggestion_contains_input_witness :
  validateCity (CM := basicCaseMapping) (js "град") = false
  /\ In (js "Волгоград") RUSSIAN_CITIES
  /\ ContainsCI (CM := basicCaseMapping) (js "град") (js "Волгоград").
Proof.
  apply (proj1 (suggestion_contains_input (CM := basicCaseMapping)
                  (js "град"))).
  vm_compute. reflexivity.
Defined.

(** ** Popular cities *)

(** X8.  The popular cities are the first fifteen entries of the
    directory, in its order; each of them is a valid city. *)
Theorem popularCities_valid {CM : CaseMapping} :
  popularCities = firstn 15 RUSSIAN_CITIES
  /\ Forall (fun city => validateCity city = true) popularCities.
Proof.
  assert (Heq : popularCities = firstn 15 RUSSIAN_CITIES)
    by (vm_compute; reflexivity).
  split; [exact Heq|]. apply List.Forall_forall. intros city Hin.
  apply validateCity_true_iff. exists city. split; [|reflexivity].
  rewrite Heq in Hin. rewrite <- (firstn_skipn 15 RUSSIAN_CITIES).
  apply in_or_app. now left.
Qed.

(** ** Reading, finding and deleting records *)

Section StoreHandlers.

Context {H : Host}.

Lemma readProjects_stored (fs : FS) :
  readProjects fs = (Ok (storedProjects fs), record (CallRead DATA_FILE) fs).
Proof. apply readProjects_run. Qed.


(** A stored record is read from a regular file. *)
Lemma storedProjects_found_file (fs : FS) (i : nat)
    (project : Project Number) :
  storedProjects fs !! i = Some project ->
  exists data, nodes fs !! DATA_FILE = Some (File data).
Proof.
  unfold storedProjects.
  destruct (files fs !! DATA_FILE) as [data|] eqn:Hfile.
  - intros _. exists data. now apply files_lookup_Some.
  - now rewrite lookup_nil.
Qed.

Lemma storedProjects_same_nodes (fs fs' : FS) :
  nodes fs' = nodes fs -> storedProjects fs' = storedProjects fs.
Proof. intros Heq. unfold storedProjects, files. now rewrite Heq. Qed.

Lemma find_id_FirstWithId (i : str) (projects : list (Project Number)) :
  match List.find (fun p => bool_decide (id p = i)) projects with
  | Some p => FirstWithId i p projects
  | None => Forall (fun q => id q <> i) projects
  end.
Proof.
  pose proof (find_first (fun p => bool_decide (id p = i)) projects) as Hf.
  assert (Hneg : forall l : list (Project Number),
             Forall (fun y => bool_decide (id y = i) = false) l ->
             Forall (fun q => id q <> i) l).
  { intros l. apply List.Forall_impl. intros q Hq.
    now apply bool_decide_eq_false in Hq. }
  destruct (List.find _ projects) as [p|].
  - destruct Hf as (before & after & Heq & Hp & Hb).
    exists before, after. split; [exact Heq|].
    split; [now apply bool_decide_eq_true in Hp | auto].
  - auto.
Qed.

Lemma FirstWithId_unique (i : str) (p q : Project Number)
    (projects : list (Project Number)) :
  FirstWithId i p projects -> FirstWithId i q projects -> p = q.
Proof.
  intros (b1 & a1 & H1 & Hp & Hb1) (b2 & a2 & H2 & Hq & Hb2).
  rewrite H1 in H2. clear H1. revert b2 H2 Hb2.
  induction Hb1 as [|x b1 Hx _ IH]; intros b2 H2 Hb2.
  - destruct b2 as [|y b2]; simpl in H2.
    + now injection H2.
    + injection H2 as <- _. inversion Hb2; subst. congruence.
  - destruct b2 as [|y b2]; simpl in H2.
    + injection H2 as -> _. congruence.
    + injection H2 as <- H2. inversion Hb2; subst. eauto.
Qed.

Lemma findIndex_none {A} (p : A -> bool) (l : list A) :
  findIndex p l = None <-> Forall (fun x => p x = false) l.
Proof.
  induction l as [|a l IH]; simpl.
  - split; [constructor | reflexivity].
  - destruct (p a) eqn:Ha.
    + split; [discriminate|]. intros Hall.
      inversion Hall as [|? ? Ha' _]. congruence.
    + destruct (findIndex p l); simpl.
      * split; [discriminate|]. intros Hall.
        inversion Hall as [|? ? _ Hl]. apply IH in Hl. discriminate.
      * split; [|reflexivity]. intros _. constructor; [assumption|].
        now apply IH.
Qed.



Lemma unlinkSync_run (path : str) (fs : FS) :
  unlinkSync path fs
  = match nodes fs !! path with
    | Some (File _) =>
        (Ok tt,
         {| nodes := delete path (nodes fs);
            calls := calls fs ++ [CallUnlink path] |})
    | _ => (Throw, record (CallUnlink path) fs)
    end.
Proof.
  unfold unlinkSync. rewrite files_lookup.
  now destruct (nodes fs !! path) as [[content|]|].
Qed.

(** The image clean-up on the image of an upload. *)
Lemma removeImage_upload (project : Project Number) (img : str) (fs : FS) :
  image project = Some img ->
  truthy img && startsWith img (js "uploads/") = true ->
  let imagePath := path_join dirname img in
  removeImage project fs
  = match nodes fs !! imagePath with
    | Some (File _) =>
        (Ok tt,
         {| nodes := delete imagePath (nodes fs);
            calls :=
              calls fs ++ [CallExists imagePath; CallUnlink imagePath] |})
    | Some Directory =>
        (Throw,
         {| nodes := nodes fs;
            calls :=
              calls fs ++ [CallExists imagePath; CallUnlink imagePath] |})
    | None => (Ok tt, record (CallExists imagePath) fs)
    end.
Proof.
  intros Himage Hup imagePath. unfold removeImage. rewrite Himage, Hup.
  fold imagePath. unfold bind, existsSync.
  destruct (nodes fs !! imagePath) as [[content|]|] eqn:Hnode.
  - rewrite bool_decide_eq_true_2 by eauto. rewrite unlinkSync_run.
    cbn [record nodes calls]. rewrite Hnode. now rewrite <- app_assoc.
  - rewrite bool_decide_eq_true_2 by eauto. rewrite unlinkSync_run.
    cbn [record nodes calls]. rewrite Hnode. unfold record.
    cbn [nodes calls]. now rewrite <- app_assoc.
  - rewrite bool_decide_eq_false_2 by (intros [? ?]; discriminate).
    reflexivity.
Qed.

(** The run of the [DELETE] handler on a record that it finds: the image
    of an upload is unlinked when its path names a regular file; when the
    path names a directory [unlinkSync] throws, and the handler answers
    500 before it has written anything. *)
Lemma deleteProject_found (idParam : str) (fs : FS) (projectIndex : nat)
    (project : Project Number) :
  findIndex (fun p => bool_decide (id p = idParam)) (storedProjects fs)
  = Some projectIndex ->
  storedProjects fs !! projectIndex = Some project ->
  let remainder := delete projectIndex (storedProjects fs) in
  let written := JSON_stringify_projects remainder in
  let upload :=
    match image project with
    | Some img =>
        if truthy img && startsWith img (js "uploads/")
        then Some (path_join dirname img) else None
    | None => None
    end in
  let removed := Ok (Reply (js "Проект успешно удален", idParam)) in
  deleteProject idParam fs
  = match upload with
    | Some imagePath =>
        match nodes fs !! imagePath with
        | Some (File _) =>
            (removed,
             {| nodes :=
                  <[DATA_FILE := File written]> (delete imagePath (nodes fs));
                calls :=
                  calls fs
                  ++ [CallRead DATA_FILE; CallExists imagePath;
                      CallUnlink imagePath; CallWrite DATA_FILE written] |})
        | Some Directory =>
            (Ok (Failure 500 (js "Ошибка сервера при удалении проекта")),
             {| nodes := nodes fs;
                calls :=
                  calls fs
                  ++ [CallRead DATA_FILE; CallExists imagePath;
                      CallUnlink imagePath] |})
        | None =>
            (removed,
             {| nodes := <[DATA_FILE := File written]> (nodes fs);
                calls :=
                  calls fs
                  ++ [CallRead DATA_FILE; CallExists imagePath;
                      CallWrite DATA_FILE written] |})
        end
    | None =>
        (removed,
         {| nodes := <[DATA_FILE := File written]> (nodes fs);
            calls :=
              calls fs ++ [CallRead DATA_FILE; CallWrite DATA_FILE written]
         |})
    end.
Proof.
  intros Hfind Hlookup remainder written upload removed.
  destruct (storedProjects_found_file _ _ _ Hlookup) as [data Hdata].
  assert (Hwrite : forall (trace : list FsCall),
            writeProjects remainder {| nodes := nodes fs; calls := trace |}
            = (Ok tt,
               {| nodes := <[DATA_FILE := File written]> (nodes fs);
                  calls := trace ++ [CallWrite DATA_FILE written] |})).
  { intros trace. rewrite writeProjects_run. unfold isDirectory.
    cbn [nodes calls]. now rewrite Hdata. }
  unfold deleteProject, tryCatch, bind.
  rewrite readProjects_stored, Hfind, Hlookup. unfold upload.
  destruct (image project) as [img|] eqn:Himage;
    [destruct (truthy img && startsWith img (js "uploads/")) eqn:Hup|].
  - rewrite (removeImage_upload project img _ Himage Hup).
    cbn [record nodes calls].
    destruct (nodes fs !! path_join dirname img) as [[content|]|] eqn:Hnode.
    + rewrite writeProjects_run. unfold isDirectory. cbn [nodes calls].
      assert (Hnot :
        match delete (path_join dirname img) (nodes fs) !! DATA_FILE with
        | Some Directory => true
        | _ => false
        end = false).
      { destruct (decide (path_join dirname img = DATA_FILE)) as [Heq|Hne].
        - now rewrite Heq, lookup_delete_eq.
        - now rewrite lookup_delete_ne, Hdata. }
      rewrite Hnot. unfold ret. fold remainder. fold written.
      f_equal. f_equal. now rewrite <- !app_assoc.
    + unfold ret. f_equal. f_equal. now rewrite <- !app_assoc.
    + unfold record. rewrite Hwrite. unfold ret. cbn [calls].
      f_equal. f_equal. now rewrite <- !app_assoc.
  - rewrite removeImage_not_upload
      by (right; exists img; split; [exact Himage|];
          destruct img; [reflexivity | exact Hup]).
    unfold record. rewrite Hwrite. unfold ret.
    f_equal. f_equal. now rewrite <- app_assoc.
  - rewrite removeImage_not_upload by now left.
    unfold record. rewrite Hwrite. unfold ret.
    f_equal. f_equal. now rewrite <- app_assoc.
Qed.

End StoreHandlers.

Section LookupFacts.

Context {F : FormHost}.

Lemma getProjectById_run (idParam : str) (fs : FS) :
  getProjectById idParam fs
  = (Ok match List.find (fun p => bool_decide (id p = idParam))
                (storedProjects fs) with
        | Some project => Reply project
        | None => Failure 404 (js "Проект не найден")
        end,
     record (CallRead DATA_FILE) fs).
Proof.
  unfold getProjectById, tryCatch, bind. rewrite readProjects_stored.
  now destruct (List.find _ (storedProjects fs)).
Qed.


End LookupFacts.

(** X9.  [GET /api/projects] never answers an error: it answers the
    collection that the backing document holds, which is empty when the
    document is missing or does not parse; it only reads. *)
Theorem getProjects_always_answers {F : FormHost} (fs : FS) :
  fst (getProjects fs) = Ok (Reply (storedProjects fs))
  /\ files (snd (getProjects fs)) = files fs
  /\ newCalls fs (snd (getProjects fs)) = [CallRead DATA_FILE]
  /\ (files fs !! DATA_FILE = None -> storedProjects fs = [])
  /\ (forall data,
        files fs !! DATA_FILE = Some data ->
        JSON_parse_projects data = Throw -> storedProjects fs = []).
Proof.
  unfold getProjects, tryCatch, bind. rewrite readProjects_stored.
  unfold ret, newCalls. cbn [fst snd record files calls].
  rewrite drop_app_length. repeat split.
  - intros Hnone. unfold storedProjects. now rewrite Hnone.
  - intros data Hdata Hthrow. unfold storedProjects.
    now rewrite Hdata, Hthrow.
Qed.

(** X10.  [GET /api/projects/:id] answers a record exactly when it is the
    first stored record with that identifier, and answers 404 exactly when
    no stored record has it. *)
Theorem getProjectById_first_match {F : FormHost} (idParam : str) (fs : FS) :
  (forall project,
     fst (getProjectById idParam fs) = Ok (Reply project)
     <-> FirstWithId idParam project (storedProjects fs))
  /\ (fst (getProjectById idParam fs)
      = Ok (Failure 404 (js "Проект не найден"))
      <-> Forall (fun q => id q <> idParam) (storedProjects fs)).
Proof.
  rewrite getProjectById_run. cbn [fst].
  pose proof (find_id_FirstWithId idParam (storedProjects fs)) as Hfind.
  destruct (List.find _ (storedProjects fs)) as [p|] eqn:Hf.
  - split.
    + intros project. split.
      * intros [= <-]. exact Hfind.
      * intros Hfirst. now rewrite (FirstWithId_unique _ _ _ _ Hfind Hfirst).
    + split; [discriminate|]. intros Hall.
      destruct Hfind as (before & after & Heq & Hid & _).
      rewrite Heq in Hall. apply Forall_app in Hall. destruct Hall as [_ Hall].
      inversion Hall; subst. congruence.
  - split.
    + intros project. split; [discriminate|].
      intros (before & after & Heq & Hid & _). rewrite Heq in Hfind.
      apply Forall_app in Hfind. destruct Hfind as [_ Hfind].
      inversion Hfind; subst. congruence.
    + split; [intros _; exact Hfind | reflexivity].
Qed.

(** X11.  [DELETE /api/projects/:id] answers 404 exactly when no stored
    record has the identifier, and then it has only read the backing
    document: no file is written or unlinked. *)
Theorem deleteProject_not_found {F : FormHost} (idParam : str) (fs : FS) :
  (fst (deleteProject idParam fs) = Ok (Failure 404 (js "Проект не найден"))
   <-> Forall (fun q => id q <> idParam) (storedProjects fs))
  /\ (Forall (fun q => id q <> idParam) (storedProjects fs) ->
      files (snd (deleteProject idParam fs)) = files fs
      /\ newCalls fs (snd (deleteProject idParam fs))
         = [CallRead DATA_FILE]).
Proof.
  assert (Hnone : Forall (fun q => id q <> idParam) (storedProjects fs) ->
                  deleteProject idParam fs
                  = (Ok (Failure 404 (js "Проект не найден")),
                     record (CallRead DATA_FILE) fs)).
  { intros Hall. unfold deleteProject, tryCatch, bind.
    rewrite readProjects_stored.
    assert (Hf : findIndex (fun p => bool_decide (id p = idParam))
                   (storedProjects fs) = None).
    { apply findIndex_none. eapply List.Forall_impl; [|exact Hall].
      intros q Hq. now apply bool_decide_eq_false. }
    now rewrite Hf. }
  split.
  - split; [|intros Hall; now rewrite (Hnone Hall)].
    intros Hresp.
    destruct (findIndex (fun p => bool_decide (id p = idParam))
                (storedProjects fs)) as [i|] eqn:Hf.
    + destruct (findIndex_split _ _ _ Hf)
        as (before & project & after & _ & _ & _ & _ & Hlookup & _).
      rewrite (deleteProject_found idParam fs i project Hf Hlookup) in Hresp.
      cbv zeta in Hresp.
      destruct (image project) as [img|];
        [destruct (truthy img && startsWith img (js "uploads/"));
         [destruct (nodes fs !! path_join dirname img) as [[content|]|]|]|];
        discriminate.
    + apply findIndex_none in Hf. eapply List.Forall_impl; [|exact Hf].
      intros q Hq. now apply bool_decide_eq_false in Hq.
  - intros Hall. rewrite (Hnone Hall). unfold newCalls, record.
    cbn [snd files calls]. now rewrite drop_app_length.
Qed.

Lemma deleteProject_not_found_witness :
  let F := sampleFormHost [sampleProject] sampleFields in
  files (snd (deleteProject (js "project_0") sampleFS)) = files sampleFS
  /\ newCalls sampleFS (snd (deleteProject (js "project_0") sampleFS))
     = [CallRead DATA_FILE].
Proof.
  intros F.
  apply (proj2 (deleteProject_not_found (F := F) (js "project_0") sampleFS)).
  constructor; [|constructor]. vm_compute. discriminate.
Defined.



(** The image [uploads/] is the uploads directory itself: the handler
    answers 500 and the record stays. *)
Example deleteProject_uploads_directory :
  let F := sampleFormHost [sampleUploadsDirectory] sampleFields in
  let fs' := snd (deleteProject (id sampleUploadsDirectory) sampleFS) in
  isDirectory sampleFS (path_join dirname (js "uploads/")) = true
  /\ fst (deleteProject (id sampleUploadsDirectory) sampleFS)
     = Ok (Failure 500 (js "Ошибка сервера при удалении проекта"))
  /\ nodes fs' = nodes sampleFS
  /\ fst (getProjectById (id sampleUploadsDirectory) fs')
     = Ok (Reply sampleUploadsDirectory).
Proof. intros F fs'. repeat split; vm_compute; reflexivity. Qed.



(** X23.  When the [DELETE] handler answers 500, it has changed nothing
    in the file system, and every look-up answers as before: the record is
    still stored. *)
Theorem deleteProject_failure_keeps_records {F : FormHost} (idParam : str)
    (fs : FS) :
  fst (deleteProject idParam fs)
  = Ok (Failure 500 (js "Ошибка сервера при удалении проекта")) ->
  nodes (snd (deleteProject idParam fs)) = nodes fs
  /\ forall other,
       fst (getProjectById other (snd (deleteProject idParam fs)))
       = fst (getProjectById other fs).
Proof.
  intros Hfailed.
  assert (Hnodes : nodes (snd (deleteProject idParam fs)) = nodes fs).
  { destruct (findIndex (fun p => bool_decide (id p = idParam))
                (storedProjects fs)) as [i|] eqn:Hf.
    - destruct (findIndex_split _ _ _ Hf)
        as (before & project & after & _ & _ & _ & _ & Hlookup & _).
      rewrite (deleteProject_found idParam fs i project Hf Hlookup)
        in Hfailed |- *.
      cbv zeta in Hfailed |- *.
      destruct (image project) as [img|];
        [destruct (truthy img && startsWith img (js "uploads/"));
         [destruct (nodes fs !! path_join dirname img) as [[content|]|]|]|];
        cbn [fst snd] in Hfailed |- *; try discriminate; reflexivity.
    - unfold deleteProject, tryCatch, bind in Hfailed |- *.
      rewrite readProjects_stored, Hf in Hfailed |- *. reflexivity. }
  split; [exact Hnodes|]. intros other. rewrite !getProjectById_run.
  cbn [fst]. now rewrite (storedProjects_same_nodes _ _ Hnodes).
Qed.

Lemma deleteProject_failure_witness :
  let F := sampleFormHost [sampleUploadsDirectory] sampleFields in
  let fs' := snd (deleteProject (id sampleUploadsDirectory) sampleFS) in
  fst (deleteProject (id sampleUploadsDirectory) sampleFS)
  = Ok (Failure 500 (js "Ошибка сервера при удалении проекта"))
  /\ nodes fs' = nodes sampleFS
  /\ forall other,
       fst (getProjectById other fs') = fst (getProjectById other sampleFS).
Proof.
  intros F fs'. split; [vm_compute; reflexivity|].
  apply (deleteProject_failure_keeps_records (F := F)
           (id sampleUploadsDirectory) sampleFS).
  vm_compute. reflexivity.
Defined.

(** ** Creating a record *)

Section CreateFacts.

Context {CM : CaseMapping} {F : FormHost}.

Lemma ClientForm_validateContacts_none (contacts : ContactFields) :
  ClientForm.validateContacts contacts = None
  <-> negb (present (cf_phone contacts)) && negb (present (cf_email contacts))
      && negb (present (cf_telegram contacts))
      && negb (present (cf_otherContact contacts)) = false
      /\ present (cf_email contacts)
         && negb (validateEmail (default [] (cf_email contacts))) = false
      /\ present (cf_telegram contacts)
         && negb (validateTelegram (default [] (cf_telegram contacts)))
         = false.
Proof.
  unfold ClientForm.validateContacts.
  assert (Hemail : present (cf_email contacts)
                   && negb (ClientForm.validateEmail
                              (default [] (cf_email contacts)))
                   = present (cf_email contacts)
                     && negb (validateEmail (default [] (cf_email contacts)))).
  { unfold ClientForm.validateEmail, validateEmail.
    destruct (cf_email contacts) as [[|c e]|]; reflexivity. }
  rewrite Hemail. clear Hemail.
  change (ClientForm.validateTelegram (default [] (cf_telegram contacts)))
    with (validateTelegram (default [] (cf_telegram contacts))).
  destruct (negb (present (cf_phone contacts)) && _ && _ && _).
  - split; [discriminate | intros [? _]; discriminate].
  - destruct (present (cf_email contacts) && _).
    + split; [discriminate | intros (_ & ? & _); discriminate].
    + destruct (present (cf_telegram contacts) && _).
      * split; [discriminate | intros (_ & _ & ?); discriminate].
      * tauto.
Qed.

Lemma phone_step (rawPhone : option str) :
  present rawPhone
  && negb (validatePhone
             (default []
                (if present rawPhone
                 then Some (formatPhone (default [] rawPhone))
                 else rawPhone)))
  = false
  <-> (present rawPhone = true ->
       length (stripNonDigits (default [] rawPhone)) = 11%nat).
Proof.
  destruct rawPhone as [[|c raw]|]; cbn [present truthy andb default].
  - split; [discriminate | reflexivity].
  - rewrite negb_false_iff.
    rewrite (validatePhone_formatPhone_iff (c :: raw)) by discriminate.
    tauto.
  - split; [discriminate | reflexivity].
Qed.

(** The two outcomes of the creation handler.  The write of the new
    collection fails, unnoticed, when the path of the backing document
    names a directory. *)
Lemma createProject_cases (req : CreateRequest) (fs : FS) :
  (exists r,
     createProject req fs = (Ok r, fs)
     /\ (forall p, r <> Created p)
     /\ ~ (exists contacts, AcceptedRequest req contacts))
  \/ (exists contacts,
        AcceptedRequest req contacts
        /\ createProject req fs
           = (Ok (Created (builtProject req contacts)),
              (if isDirectory fs DATA_FILE then afterFailedWrite
               else afterWrite)
                fs (storedProjects fs ++ [builtProject req contacts]))).
Proof.
  unfold createProject, tryCatch, bind.
  destruct (0 <? length (missingFields req))%nat eqn:Hmiss.
  { left. eexists. split; [reflexivity|]. split; [discriminate|].
    intros (c & Hm & _). rewrite Hm in Hmiss. discriminate. }
  assert (Hm : missingFields req = [])
    by (destruct (missingFields req); [reflexivity | discriminate]).
  destruct (validateCity (trim (default [] (body_city req)))) eqn:Hcity;
    cbn [negb].
  2:{ left. eexists. split; [reflexivity|]. split; [discriminate|].
      intros (c & _ & Hc & _). congruence. }
  destruct (JSON_parse_contact (default [] (body_contact req)))
    as [[contacts|]|] eqn:Hparse.
  3:{ left. eexists. split; [reflexivity|]. split; [discriminate|].
      intros (c & _ & _ & Hp & _). congruence. }
  2:{ left. eexists. split; [reflexivity|]. split; [discriminate|].
      intros (c & _ & _ & Hp & _). congruence. }
  assert (Hnot : (AcceptedRequest req contacts -> False) ->
                 ~ (exists c, AcceptedRequest req c)).
  { intros HP (c & Hc). apply HP.
    destruct Hc as (? & ? & Hp & ?). assert (c = contacts) by congruence.
    subst c. repeat split; assumption || tauto. }
  destruct (negb (present (cf_phone contacts)) && _ && _ && _) eqn:Hpres.
  { left. eexists. split; [reflexivity|]. split; [discriminate|].
    apply Hnot. intros (_ & _ & _ & Hv & _).
    apply ClientForm_validateContacts_none in Hv. destruct Hv. congruence. }
  destruct (present (cf_phone contacts) && _) eqn:Hphone.
  { left. eexists. split; [reflexivity|]. split; [discriminate|].
    apply Hnot. intros (_ & _ & _ & _ & Hp & _).
    apply phone_step in Hp. congruence. }
  destruct (present (cf_email contacts) && _) eqn:Hemail.
  { left. eexists. split; [reflexivity|]. split; [discriminate|].
    apply Hnot. intros (_ & _ & _ & Hv & _).
    apply ClientForm_validateContacts_none in Hv.
    destruct Hv as (_ & ? & _). congruence. }
  destruct (present (cf_telegram contacts) && _) eqn:Htelegram.
  { left. eexists. split; [reflexivity|]. split; [discriminate|].
    apply Hnot. intros (_ & _ & _ & Hv & _).
    apply ClientForm_validateContacts_none in Hv.
    destruct Hv as (_ & _ & ?). congruence. }
  destruct (Number_isNaN _) eqn:Hnan.
  { left. eexists. split; [reflexivity|]. split; [discriminate|].
    apply Hnot. intros (_ & _ & _ & _ & _ & Hn & _). congruence. }
  destruct (Number_nonPositive _) eqn:Hpos.
  { left. eexists. split; [reflexivity|]. split; [discriminate|].
    apply Hnot. intros (_ & _ & _ & _ & _ & _ & Hn). congruence. }
  right. exists contacts. split.
  - split; [exact Hm|]. split; [exact Hcity|]. split; [exact Hparse|].
    split; [now apply ClientForm_validateContacts_none|].
    split; [now apply phone_step|]. now split.
  - cbn [orb]. rewrite readProjects_stored. rewrite writeProjects_run.
    rewrite isDirectory_record.
    destruct (isDirectory fs DATA_FILE);
      unfold ret, afterWrite, afterFailedWrite, record; cbn [nodes calls];
      rewrite <- app_assoc; reflexivity.
Qed.

End CreateFacts.

Section CreateInvariants.

Context {CM : CaseMapping} {F : FormHost}.






End CreateInvariants.

(** X14.  The callback of [POST /api/projects], which runs once the upload
    middleware has stored the image of the request, always answers; and
    whenever it does not create a record (a refusal, or its answer 500) it
    has made no call to the file system: it leaves it as it received it,
    the image stored by the middleware included, which is not removed. *)
Theorem createProject_refusal_leaves_store {CM : CaseMapping} {F : FormHost}
    (req : CreateRequest) (fs : FS) :
  (exists r, fst (createProject req fs) = Ok r)
  /\ ((forall p, fst (createProject req fs) <> Ok (Created p)) ->
      snd (createProject req fs) = fs).
Proof.
  destruct (createProject_cases req fs)
    as [(r & Hrun & _) | (contacts & _ & Hrun)]; rewrite Hrun; cbn [fst snd].
  - split; [eauto | reflexivity].
  - split; [eauto|]. intros Hno. now destruct (Hno (builtProject req contacts)).
Qed.

Lemma createProject_refusal_witness :
  let F := sampleFormHost [] sampleFields in
  let req :=
    {| body_title := Some (js "   ");
       body_tagline := body_tagline sampleRequest;
       body_description := body_description sampleRequest;
       body_city := body_city sampleRequest;
       body_price := body_price sampleRequest;
       body_contact := body_contact sampleRequest;
       file_filename := None;
       idNow := idNow sampleRequest;
       idRandom := idRandom sampleRequest;
       createdNow := createdNow sampleRequest |} in
  fst (createProject (CM := basicCaseMapping) req emptyStoreFS)
  = Ok (Refused (js "Не заполнены обязательные поля: Название проекта"))
  /\ snd (createProject (CM := basicCaseMapping) req emptyStoreFS)
     = emptyStoreFS.
Proof.
  intros F req. split; [vm_compute; reflexivity|].
  apply (proj2 (createProject_refusal_leaves_store
                  (CM := basicCaseMapping) (F := F) req emptyStoreFS)).
  intros p. vm_compute. discriminate.
Defined.





(** With a directory in the place of the backing document, the handler
    answers that the record is created and stores nothing. *)
Example createProject_on_directory :
  let F := sampleFormHost [] sampleFields in
  let run := createProject (CM := basicCaseMapping) sampleRequest
               directoryStoreFS in
  isDirectory directoryStoreFS DATA_FILE = true
  /\ fst run = Ok (Created createdSample)
  /\ nodes (snd run) = nodes directoryStoreFS
  /\ fst (getProjectById (id createdSample) (snd run))
     = Ok (Failure 404 (js "Проект не найден")).
Proof. intros F run. repeat split; vm_compute; reflexivity. Qed.





(** ** Failures of the export and of the date filter *)

Section AllOrNothing.

Context {H : Host}.

Lemma csvRow_cases (p : Project Number) :
  (readableContact p /\ exists row, csvRow p = Ok row)
  \/ (unreadableContact p /\ csvRow p = Throw).
Proof.
  unfold csvRow, readableContact, unreadableContact.
  destruct (JSON_parse_contacts (contact p)) as [[contacts|]|];
    [|right; split; [right; left|]; reflexivity
     |right; split; [left|]; reflexivity].
  destruct (contactCell (contacts_phone contacts)) as [a|] eqn:Ha;
    [|right; split; [right; right; exists contacts|]; auto].
  destruct (contactCell (contacts_email contacts)) as [b|] eqn:Hb;
    [|right; split; [right; right; exists contacts|]; auto].
  destruct (contactCell (contacts_telegram contacts)) as [c|] eqn:Hc;
    [|right; split; [right; right; exists contacts|]; auto].
  left. split; [|eauto]. exists contacts.
  repeat split; congruence.
Qed.

Lemma readable_not_unreadable (p : Project Number) :
  readableContact p -> unreadableContact p -> False.
Proof.
  intros (contacts & Hparse & Ha & Hb & Hc)
         [Hthrow | [Hnull | (contacts' & Hparse' & Hcells)]];
    [congruence | congruence |].
  assert (contacts' = contacts) by congruence. subst contacts'.
  destruct Hcells as [? | [? | ?]]; congruence.
Qed.

Lemma csvRows_cases (csv : str) (projects : list (Project Number)) :
  (Forall readableContact projects
   /\ exists out, csvRows csv projects = Ok out)
  \/ (Exists unreadableContact projects /\ csvRows csv projects = Throw).
Proof.
  revert csv. induction projects as [|p projects IH]; intros csv.
  - left. split; [constructor | now exists csv].
  - cbn [csvRows].
    destruct (csvRow_cases p) as [[Hp [row Hrow]] | [Hp Hrow]]; rewrite Hrow.
    + destruct (IH (csv ++ row ++ [10])) as [[Hall Hout] | [Hex Hthrow]].
      * left. split; [now constructor | exact Hout].
      * right. split; [now apply Exists_cons_tl | exact Hthrow].
    + right. split; [now apply Exists_cons_hd | reflexivity].
Qed.

Lemma filterByDate_cases (date : str) (projects : list (Project Number)) :
  (Forall validCreatedAt projects
   /\ filterByDate date projects = Ok (projectsOfUtcDay date projects))
  \/ (Exists (fun p => Date_parse (createdAt p) = None) projects
      /\ filterByDate date projects = Throw).
Proof.
  induction projects as [|p projects IH].
  - left. split; [constructor | reflexivity].
  - destruct (Date_parse (createdAt p)) as [t|] eqn:Hp.
    + destruct IH as [[Hall Hok] | [Hex Hthrow]].
      * left. assert (Hv : Forall validCreatedAt (p :: projects)).
        { constructor; [unfold validCreatedAt; congruence | exact Hall]. }
        split; [exact Hv | now apply filterByDate_valid].
      * right. split; [now apply Exists_cons_tl|].
        unfold filterByDate in Hthrow |- *. simpl.
        unfold toISOString at 1. rewrite Hp. now rewrite Hthrow.
    + right. split; [now apply Exists_cons_hd|].
      unfold filterByDate. simpl. unfold toISOString at 1. now rewrite Hp.
Qed.

End AllOrNothing.

(** X19.  The export answers 500 exactly when the contact text of some
    stored record does not parse, or parses to [null], or to a value whose
    phone, e-mail or Telegram property cannot be rendered as text; one
    such record is enough, wherever it stands, and no part of the text is
    then sent.  The file system is only read. *)
Theorem exportCsv_fails_iff {H : Host} (fs : FS) :
  (fst (exportCsv fs) = Ok (Failure 500 (js "Ошибка сервера"))
   <-> Exists
         (fun p =>
            JSON_parse_contacts (contact p) = Throw
            \/ JSON_parse_contacts (contact p) = Ok None
            \/ exists contacts,
                 JSON_parse_contacts (contact p) = Ok (Some contacts)
                 /\ (contactCell (contacts_phone contacts) = Throw
                     \/ contactCell (contacts_email contacts) = Throw
                     \/ contactCell (contacts_telegram contacts) = Throw))
         (storedProjects fs))
  /\ files (snd (exportCsv fs)) = files fs.
Proof.
  unfold exportCsv, tryCatch, bind. rewrite readProjects_stored.
  unfold liftExc, exportCsvText.
  destruct (csvRows_cases (csvHeader ++ [10]) (storedProjects fs))
    as [[Hall [out Hout]] | [Hex Hthrow]].
  - rewrite Hout. cbn [fst snd ret]. split; [|reflexivity].
    split; [discriminate|]. intros Hex. apply Exists_exists in Hex.
    destruct Hex as (p & Hin & Hp). rewrite List.Forall_forall in Hall.
    apply list_elem_of_In in Hin.
    now destruct (readable_not_unreadable p (Hall p Hin) Hp).
  - rewrite Hthrow. cbn [fst snd ret]. split; [|reflexivity].
    split; [intros _; exact Hex | reflexivity].
Qed.

Lemma exportCsv_fails_witness :
  let H := contactHost [sampleProject; sampleNullContact] sampleParse in
  fst (exportCsv sampleFS) = Ok (Failure 500 (js "Ошибка сервера")).
Proof.
  intros H. apply (proj1 (exportCsv_fails_iff (H := H) sampleFS)).
  apply Exists_cons_tl, Exists_cons_hd. right. left. vm_compute. reflexivity.
Defined.

(** X20.  [GET /api/projects/date/:date] answers 500 exactly when the
    creation time stamp of some stored record is not a date, whatever the
    date asked for.  The file system is only read. *)
Theorem getProjectsByDate_fails_iff {H : Host} (date : str) (fs : FS) :
  (fst (getProjectsByDate date fs) = Ok (Failure 500 (js "Ошибка сервера"))
   <-> Exists (fun p => Date_parse (createdAt p) = None) (storedProjects fs))
  /\ files (snd (getProjectsByDate date fs)) = files fs.
Proof.
  unfold getProjectsByDate, tryCatch, bind. rewrite readProjects_stored.
  unfold liftExc.
  destruct (filterByDate_cases date (storedProjects fs))
    as [[Hall Hok] | [Hex Hthrow]].
  - rewrite Hok. cbn [fst snd ret]. split; [|reflexivity].
    split; [discriminate|]. intros Hex. apply Exists_exists in Hex.
    destruct Hex as (p & Hin & Hp). rewrite List.Forall_forall in Hall.
    apply list_elem_of_In in Hin. now destruct (Hall p Hin).
  - rewrite Hthrow. cbn [fst snd ret]. split; [|reflexivity].
    split; [intros _; exact Hex | reflexivity].
Qed.

(** ** The client's image address *)

(** [getImageUrl] answers no address for a missing or empty path,
    and otherwise an address that starts with [http]: the path itself when
    it does, the path after the address of the server when it does
    not. *)
Lemma getImageUrl_absolute (imagePath : option str) :
  (ClientForm.getImageUrl imagePath = None <-> present imagePath = false)
  /\ (forall url,
        ClientForm.getImageUrl imagePath = Some url ->
        startsWith url (js "http") = true
        /\ exists path,
             imagePath = Some path
             /\ (url = path \/ url = js "http://localhost:3000/" ++ path)).
Proof.
  unfold ClientForm.getImageUrl.
  destruct imagePath as [[|c path]|]; cbn [present truthy negb].
  - split; [tauto | discriminate].
  - destruct (startsWith (c :: path) (js "http")) eqn:Hhttp.
    + split; [split; discriminate|]. intros url [= <-].
      split; [exact Hhttp|]. exists (c :: path). auto.
    + split; [split; discriminate|]. intros url [= <-].
      split; [reflexivity|]. exists (c :: path). auto.
  - split; [tauto | discriminate].
Qed.

(** ** The form validated by the client and the server *)

Section FormFacts.

Context {CM : CaseMapping} {F : FormHost}.

Lemma validateProjectForm_nil (formData : ClientProjectForm.FormData) :
  ClientProjectForm.validateProjectForm formData = [] ->
  blankField (ClientProjectForm.form_title formData) = false
  /\ blankField (ClientProjectForm.form_tagline formData) = false
  /\ blankField (ClientProjectForm.form_description formData) = false
  /\ blankField (ClientProjectForm.form_city formData) = false
  /\ present (ClientProjectForm.form_price formData) = true
  /\ Number_nonPositive
       (Number_parse (default [] (ClientProjectForm.form_price formData)))
     = false
  /\ ClientForm.validateContacts (ClientProjectForm.form_contacts formData)
     = None.
Proof.
  unfold ClientProjectForm.validateProjectForm. intros H.
  repeat match type of H with
         | _ ++ _ = [] =>
             apply app_eq_nil in H;
             let H1 := fresh "H" in destruct H as [H1 H]
         end.
  repeat match goal with
         | H : (if ?b then _ else _) = [] |- _ =>
             destruct b eqn:?; [discriminate H | clear H]
         end.
  match goal with
  | H : _ || _ = false |- _ => apply orb_false_iff in H; destruct H as [Hp Hn]
  end.
  apply negb_false_iff in Hp.
  repeat (split; [first [assumption | reflexivity]|]).
  destruct (ClientForm.validateContacts _) as [e|] eqn:He; [|reflexivity].
  exfalso. unfold ClientForm.validateContacts in He.
  repeat match type of He with
         | (if ?b then _ else _) = _ => destruct b
         end;
    try discriminate; injection He as <-; vm_compute in H; discriminate.
Qed.

End FormFacts.

(** X21.  A form that the client's [validateProjectForm] passes without
    error can still be refused by the server: when its price is a text
    that is not a number, the server, given a valid city, a contact text
    that parses back to the contact object and a phone that is absent or
    of eleven digits, answers that the price must be a positive number. *)
Theorem client_passes_price_server_refuses {CM : CaseMapping} {F : FormHost}
    (formData : ClientProjectForm.FormData) (contactText : str)
    (filename : option str) (now1 : Z) (random : str) (now2 : Z) (fs : FS) :
  ClientProjectForm.validateProjectForm formData = [] ->
  Number_isNaN
    (Number_parse (default [] (ClientProjectForm.form_price formData)))
  = true ->
  contactText <> [] ->
  JSON_parse_contact contactText
  = Ok (Some (ClientProjectForm.form_contacts formData)) ->
  validateCity (trim (default [] (ClientProjectForm.form_city formData)))
  = true ->
  (present (cf_phone (ClientProjectForm.form_contacts formData)) = true ->
   length (stripNonDigits
             (default []
                (cf_phone (ClientProjectForm.form_contacts formData))))
   = 11%nat) ->
  createProject
    (requestOfForm formData contactText filename now1 random now2) fs
  = (Ok (Refused (js "Стоимость должна быть положительным числом")), fs).
Proof.
  intros Hform Hnan Htext Hparse Hcity Hphone.
  apply validateProjectForm_nil in Hform.
  destruct Hform as (Ht & Hg & Hd & Hc & Hp & _ & Hv).
  apply ClientForm_validateContacts_none in Hv.
  destruct Hv as (Hpres & Hemail & Htelegram).
  apply phone_step in Hphone.
  unfold createProject, tryCatch, bind.
  assert (Hm : missingFields
                 (requestOfForm formData contactText filename now1 random now2)
               = []).
  { unfold missingFields, requestOfForm.
    cbn [body_title body_tagline body_description body_city body_price
         body_contact].
    rewrite Ht, Hg, Hd, Hc, Hp.
    destruct contactText; [congruence | reflexivity]. }
  rewrite Hm. cbn [length Nat.ltb Nat.leb].
  unfold requestOfForm at 1 2.
  cbn [body_city body_contact default from_option Datatypes.id].
  change (default [] (ClientProjectForm.form_city formData))
    with (from_option Datatypes.id [] (ClientProjectForm.form_city formData))
    in Hcity.
  rewrite Hcity. cbn [negb]. rewrite Hparse, Hpres, Hphone, Hemail, Htelegram.
  unfold requestOfForm at 1. cbn [body_price].
  change (from_option Datatypes.id []
            (ClientProjectForm.form_price formData))
    with (default [] (ClientProjectForm.form_price formData)).
  rewrite Hnan. reflexivity.
Qed.

Lemma client_passes_price_server_refuses_witness :
  let F := sampleFormHost [] sampleFields in
  ClientProjectForm.validateProjectForm (CM := basicCaseMapping)
    (sampleForm (js "n/a"))
  = []
  /\ createProject (CM := basicCaseMapping)
       (requestOfForm (sampleForm (js "n/a")) (js "{...}") None 0 [] 0)
       emptyStoreFS
     = (Ok (Refused (js "Стоимость должна быть положительным числом")),
        emptyStoreFS).
Proof.
  intros F. split; [vm_compute; reflexivity|].
  apply (client_passes_price_server_refuses (CM := basicCaseMapping) (F := F)
           (sampleForm (js "n/a")) (js "{...}") None 0 [] 0 emptyStoreFS).
  - vm_compute. reflexivity.
  - vm_compute. reflexivity.
  - discriminate.
  - reflexivity.
  - vm_compute. reflexivity.
  - intros _. vm_compute. reflexivity.
Defined.

(** ** Identifiers *)

Lemma utf16_of_utf8_ascii (bs : list N) :
  Forall (fun b => b < 0x80) bs -> utf16_of_utf8 bs = bs.
Proof.
  induction 1 as [|b bs Hb _ IH]; [reflexivity|].
  cbn [utf16_of_utf8]. apply N.ltb_lt in Hb. now rewrite Hb, IH.
Qed.

Lemma uint_chars (d : Decimal.uint) :
  Forall (fun c => isDigit c = true)
    (map N_of_ascii (list_ascii_of_string (NilEmpty.string_of_uint d))).
Proof.
  induction d; cbn [NilEmpty.string_of_uint list_ascii_of_string map];
    constructor; solve [reflexivity | assumption].
Qed.

Lemma int_chars (d : Decimal.signed_int) :
  Forall (fun c => isDigit c = true \/ c = 45)
    (map N_of_ascii (list_ascii_of_string (NilZero.string_of_int d))).
Proof.
  assert (Hu : forall u,
             Forall (fun c => isDigit c = true \/ c = 45)
               (map N_of_ascii
                  (list_ascii_of_string (NilZero.string_of_uint u)))).
  { intros u. eapply List.Forall_impl; [intros c Hc; left; exact Hc|].
    destruct u; try apply (uint_chars (_ _)).
    repeat constructor. }
  destruct d as [u|u]; cbn [NilZero.string_of_int].
  - apply Hu.
  - cbn [list_ascii_of_string map]. constructor; [now right | apply Hu].
Qed.

Lemma decimal_chars (n : Z) :
  decimal n
  = map N_of_ascii
      (list_ascii_of_string (NilZero.string_of_int (Z.to_int n)))
  /\ Forall (fun c => c <> 95) (decimal n).
Proof.
  pose proof (int_chars (Z.to_int n)) as Hc.
  assert (Heq : decimal n
                = map N_of_ascii
                    (list_ascii_of_string
                       (NilZero.string_of_int (Z.to_int n)))).
  { unfold decimal, js. apply utf16_of_utf8_ascii.
    eapply List.Forall_impl; [|exact Hc]. intros c [Hd | ->]; [|reflexivity].
    unfold isDigit in Hd. apply andb_true_iff in Hd. destruct Hd as [_ Hd].
    apply N.leb_le in Hd. lia. }
  split; [exact Heq|]. rewrite Heq.
  eapply List.Forall_impl; [|exact Hc]. intros c [Hd | ->]; [|discriminate].
  intros ->. vm_compute in Hd. discriminate.
Qed.

Lemma N_of_ascii_inj (a b : ascii) : N_of_ascii a = N_of_ascii b -> a = b.
Proof.
  intros H. rewrite <- (ascii_N_embedding a), <- (ascii_N_embedding b).
  now rewrite H.
Qed.

Lemma list_ascii_of_string_inj (s t : string) :
  list_ascii_of_string s = list_ascii_of_string t -> s = t.
Proof.
  intros H. rewrite <- (string_of_list_ascii_of_string s),
    <- (string_of_list_ascii_of_string t). now rewrite H.
Qed.

Lemma map_inj {A B} (f : A -> B) (l1 l2 : list A) :
  (forall a b, f a = f b -> a = b) -> map f l1 = map f l2 -> l1 = l2.
Proof.
  intros Hf. revert l2. induction l1 as [|a l1 IH]; intros [|b l2] H;
    try discriminate; [reflexivity|].
  simpl in H. injection H as Hab H. f_equal; auto.
Qed.

Lemma to_int_not_nil (n : Z) :
  Z.to_int n <> Decimal.Pos Decimal.Nil
  /\ Z.to_int n <> Decimal.Neg Decimal.Nil.
Proof.
  split; intros H; pose proof (f_equal Z.of_int H) as H';
    rewrite DecimalZ.of_to in H'; subst n; vm_compute in H; discriminate.
Qed.

Lemma decimal_inj (n m : Z) : decimal n = decimal m -> n = m.
Proof.
  intros H. destruct (decimal_chars n) as [Hn _].
  destruct (decimal_chars m) as [Hm _]. rewrite Hn, Hm in H.
  apply map_inj in H; [|exact N_of_ascii_inj].
  apply list_ascii_of_string_inj in H.
  apply DecimalZ.to_int_inj.
  destruct (to_int_not_nil n) as [Hn1 Hn2].
  destruct (to_int_not_nil m) as [Hm1 Hm2].
  pose proof (NilZero.isi _ Hn1 Hn2) as Hin.
  pose proof (NilZero.isi _ Hm1 Hm2) as Him.
  rewrite H in Hin. congruence.
Qed.

Lemma split_at_first (sep : N) (a1 a2 r1 r2 : str) :
  Forall (fun c => c <> sep) a1 -> Forall (fun c => c <> sep) a2 ->
  a1 ++ sep :: r1 = a2 ++ sep :: r2 -> a1 = a2 /\ r1 = r2.
Proof.
  intros H1. revert a2. induction H1 as [|c a1 Hc _ IH]; intros a2 H2 Heq.
  - destruct H2 as [|d a2 Hd _]; simpl in Heq.
    + now injection Heq.
    + injection Heq as Hs _. congruence.
  - destruct H2 as [|d a2 Hd H2]; simpl in Heq.
    + injection Heq as Hs _. congruence.
    + injection Heq as -> Heq. destruct (IH a2 H2 Heq) as [-> ->]. now split.
Qed.

(** X22.  Two identifiers made by [generateId] are equal only when they
    were made from the same clock value and the same random characters. *)
Theorem generateId_inj (now1 now2 : Z) (random1 random2 : str) :
  generateId now1 random1 = generateId now2 random2 ->
  now1 = now2 /\ random1 = random2.
Proof.
  unfold generateId. intros H. apply app_inv_head in H.
  change (js "_") with [95] in H. cbn [app] in H.
  apply split_at_first in H; try apply decimal_chars.
  destruct H as [Hd Hr]. split; [now apply decimal_inj | exact Hr].
Qed.

Lemma generateId_inj_witness :
  (1705357800000 = 1705357800000)%Z /\ js "k3x9q2m1z" = js "k3x9q2m1z".
Proof.
  apply (generateId_inj 1705357800000 1705357800000 (js "k3x9q2m1z")
           (js "k3x9q2m1z")).
  reflexivity.
Defined.
